(** * cortx-ha: the message bus wrapper ([ha/util/message_bus.py])

    A shallow embedding of [MessageBusProducer.publish],
    [MessageBusConsumer.run], [MessageBusConsumer.stop] and
    [MessageBus.register], and the properties of the consumption loop.

    The transport ([cortx.utils.message_bus]), the caller's handler, the
    logger and the threads that call [stop] are external: they are taken
    as state transformers over a world, and every call the code makes on
    them is recorded, in order, in a trace of events. *)

From Stdlib Require Import ZArith String Ascii List Bool Lia DecimalString.
Import ListNotations.
Open Scope string_scope.
Open Scope Z_scope.
Open Scope list_scope.
Set Warnings "-register-all".

(** ** Python values and exceptions *)

(** The values a caller can hand to [publish] or return from a handler. *)
Inductive PyValue : Type :=
| PyNone
| PyBool (b : bool)
| PyInt (z : Z)
| PyStr (s : string)
| PyList (l : list PyValue)
| PyDict (d : list (PyValue * PyValue))
| PyObject (class text : string).  (* any other object (a float, a tuple, bytes, ...) and its str() *)

(** An instance of (a subclass of) [Exception]; [exn_text] is [str(e)]. *)
Record Exn : Type := mkExn { exn_class : string; exn_text : string }.

Inductive Result (A : Type) : Type :=
| Ok (a : A)
| Raise (e : Exn).
Arguments Ok {A} a.
Arguments Raise {A} e.

(** [x == "literal"] for a Python value [x]: only a [str] equals a [str]. *)
Definition py_eq_str (v : PyValue) (s : string) : bool :=
  match v with
  | PyStr t => String.eqb t s
  | _ => false
  end.

(** [needle in haystack] on Python strings. *)
Fixpoint str_in (needle haystack : string) : bool :=
  if String.prefix needle haystack then true
  else match haystack with
       | EmptyString => false
       | String _ rest => str_in needle rest
       end.

(** ** class CONSUMER_STATUS *)

Module CONSUMER_STATUS.
Definition SUCCESS : string := "success".
Definition FAILED : string := "failed".
Definition FAILED_STOP : string := "failed_stop".
Definition SUCCESS_STOP : string := "success_stop".
End CONSUMER_STATUS.

(** The outcomes of the specification, as the values the handler returns:
    PROCESSED and IGNORED are both [SUCCESS]. *)
Inductive HandlerOutcome : Type :=
| PROCESSED | IGNORED | RETRY | STOP_NO_ACK | STOP_ACK.

Definition outcome_value (o : HandlerOutcome) : PyValue :=
  match o with
  | PROCESSED | IGNORED => PyStr CONSUMER_STATUS.SUCCESS
  | RETRY => PyStr CONSUMER_STATUS.FAILED
  | STOP_NO_ACK => PyStr CONSUMER_STATUS.FAILED_STOP
  | STOP_ACK => PyStr CONSUMER_STATUS.SUCCESS_STOP
  end.

(** A returned value that is none of SUCCESS, FAILED_STOP, SUCCESS_STOP:
    FAILED, [None] (no return value) or anything else. *)
Definition unrecognised (status : PyValue) : bool :=
  negb (py_eq_str status CONSUMER_STATUS.SUCCESS)
  && negb (py_eq_str status CONSUMER_STATUS.FAILED_STOP)
  && negb (py_eq_str status CONSUMER_STATUS.SUCCESS_STOP).

(** ** class MessageBusConsumer: the object *)

(** A message as the transport hands it over. *)
Definition Message : Type := string.

(** The attributes [__init__] sets, but for [callback] and the transport
    handle [consumer], which are collaborators (below). *)
Record MessageBusConsumer : Type := mkConsumer {
  _stop : bool;            (* the Event: is_set() *)
  flush_on_exit : bool;
  consumer_id : Z;
  consumer_group : string;
  message_type : string;
  name : string;
  auto_ack : bool;
  offset : string;
  timeout : Z
}.

(** [MessageBusConsumer.__init__] *)
Definition init_consumer (consumer_id : Z) (consumer_group message_type : string)
    (auto_ack : bool) (offset : string) (timeout : Z) : MessageBusConsumer :=
  {| _stop := false;
     flush_on_exit := false;
     consumer_id := consumer_id;
     consumer_group := consumer_group;
     message_type := message_type;
     name := (message_type ++ "-consumer-thread")%string;
     auto_ack := auto_ack;
     offset := offset;
     timeout := timeout |}.

(** [MessageBus.get_consumer], its defaults written out by [None]. *)
Definition get_consumer (consumer_id : Z) (consumer_group message_type : string)
    (auto_ack : option bool) (offset : option string) (timeout : option Z)
  : MessageBusConsumer :=
  init_consumer consumer_id consumer_group message_type
    (match auto_ack with Some b => b | None => false end)
    (match offset with Some o => o | None => "earliest" end)
    (match timeout with Some t => t | None => 0 end).

(** ** The world, the events and the collaborators *)

(** What the logger is called with. *)
Inductive LogRecord : Type :=
| LogCallerException (e : Exn)   (* Log.error "Caught exception from caller: {e}. retry again ..." *)
| LogBusException (e : Exn)      (* Log.error "Supressing exception from message bus {e}" *)
| LogFlushPending (message_type : string)  (* Log.info "flush pending messages of type ..." *)
| LogFlushing (m : Message).     (* Log.info "flushing message: ..." *)

(** The calls of the worker, in the order it makes them. *)
Inductive Event : Type :=
| EvIsSet (b : bool)                                  (* self._stop.is_set() *)
| EvReceive (timeout : Z) (r : Result (option Message)) (* self.consumer.receive(timeout=...) *)
| EvCallback (m : Message) (r : Result PyValue)       (* self.callback(message) *)
| EvAck (r : Result unit)                             (* self.consumer.ack() *)
| EvLog (l : LogRecord).

(** The consumer object together with the state [X] of everything outside
    it: the topic, the handler's own state, the other threads. *)
Record World (X : Type) : Type := mkWorld { self : MessageBusConsumer; ext : X }.
Arguments mkWorld {X} self ext.
Arguments self {X} w.
Arguments ext {X} w.

(** The collaborators of a worker. Each call may change the whole world:
    another thread can call [stop] while the worker is inside a poll or
    inside the handler.  [CORTX_HA_WAIT_TIMEOUT] is [ha.const]'s. *)
Record Collaborators (X : Type) : Type := mkCollaborators {
  CORTX_HA_WAIT_TIMEOUT : Z;
  consumer_receive : Z -> World X -> Result (option Message) * World X;
  consumer_ack : World X -> Result unit * World X;
  callback : Message -> World X -> Result PyValue * World X
}.
Arguments CORTX_HA_WAIT_TIMEOUT {X} c.
Arguments consumer_receive {X} c timeout w.
Arguments consumer_ack {X} c w.
Arguments callback {X} c m w.

(** [MessageBusConsumer.stop]: called from outside the worker. *)
Definition stop {X : Type} (flush : bool) (w : World X) : World X :=
  let s := self w in
  mkWorld {| _stop := true;
             flush_on_exit := flush;
             consumer_id := consumer_id s;
             consumer_group := consumer_group s;
             message_type := message_type s;
             name := name s;
             auto_ack := auto_ack s;
             offset := offset s;
             timeout := timeout s |} (ext w).

(** ** The worker's frame and its monad *)

(** The local variables of [run] and the world.  [message = None] stands
    for a variable that is unbound or holds Python's [None]. *)
Record Frame (X : Type) : Type := mkFrame {
  retry : bool;
  message : option Message;
  world : World X
}.
Arguments mkFrame {X} retry message world.
Arguments retry {X} f.
Arguments message {X} f.
Arguments world {X} f.

(** A computation of the worker: it returns or raises, appends the calls
    it makes to the trace, and changes the frame. *)
Definition M (X A : Type) : Type := Frame X -> Result A * list Event * Frame X.

Definition ret {X A : Type} (a : A) : M X A := fun f => (Ok a, [], f).

Definition bind {X A B : Type} (m : M X A) (k : A -> M X B) : M X B :=
  fun f =>
    match m f with
    | (Ok a, t1, f1) => let '(r, t2, f2) := k a f1 in (r, t1 ++ t2, f2)
    | (Raise e, t1, f1) => (Raise e, t1, f1)
    end.

(** [try: m  except Exception as e: h e]; the handler runs in the frame
    the exception left behind. *)
Definition try_except {X A : Type} (m : M X A) (h : Exn -> M X A) : M X A :=
  fun f =>
    match m f with
    | (Ok a, t1, f1) => (Ok a, t1, f1)
    | (Raise e, t1, f1) => let '(r, t2, f2) := h e f1 in (r, t1 ++ t2, f2)
    end.

Declare Scope worker_scope.
Delimit Scope worker_scope with worker.
Notation "x <- m ;; k" := (bind m (fun x => k))
  (at level 61, m at next level, right associativity) : worker_scope.
Notation "m ;; k" := (bind m (fun _ => k))
  (at level 61, right associativity) : worker_scope.
Open Scope worker_scope.

Definition raise {X A : Type} (e : Exn) : M X A := fun f => (Raise e, [], f).

Definition log {X : Type} (l : LogRecord) : M X unit :=
  fun f => (Ok tt, [EvLog l], f).

Definition get_retry {X : Type} : M X bool := fun f => (Ok (retry f), [], f).

Definition set_retry {X : Type} (b : bool) : M X unit :=
  fun f => (Ok tt, [], mkFrame b (message f) (world f)).

Definition set_message {X : Type} (m : option Message) : M X unit :=
  fun f => (Ok tt, [], mkFrame (retry f) m (world f)).

(** Reading [message] where the code passes it to the handler. *)
Definition get_message {X : Type} : M X Message :=
  fun f =>
    match message f with
    | Some m => (Ok m, [], f)
    | None => (Raise (mkExn "UnboundLocalError" "local variable 'message' referenced before assignment"), [], f)
    end.

Definition get_self {X : Type} : M X MessageBusConsumer :=
  fun f => (Ok (self (world f)), [], f).

(** [self._stop.is_set()] *)
Definition is_set {X : Type} : M X bool :=
  fun f => let b := _stop (self (world f)) in (Ok b, [EvIsSet b], f).

(** The control a loop body ends with: [Next] is falling off its end. *)
Inductive Ctl : Type := Next | Continue | Break.

(** How [run] ended: it returned, or the model ran out of fuel. *)
Inductive Outcome : Type := Returned | OutOfFuel.

Section Worker.
Context {X : Type} (C : Collaborators X).

(** [self.consumer.receive(timeout=t)] *)
Definition receive (t : Z) : M X (option Message) :=
  fun f =>
    let '(r, w) := consumer_receive C t (world f) in
    (r, [EvReceive t r], mkFrame (retry f) (message f) w).

(** [self.consumer.ack()] *)
Definition ack : M X unit :=
  fun f =>
    let '(r, w) := consumer_ack C (world f) in
    (r, [EvAck r], mkFrame (retry f) (message f) w).

(** [self.callback(m)] *)
Definition call (m : Message) : M X PyValue :=
  fun f =>
    let '(r, w) := callback C m (world f) in
    (r, [EvCallback m r], mkFrame (retry f) (message f) w).

(** The [if status == ... elif ... else] of [run]. *)
Definition dispatch (status : PyValue) : M X Ctl :=
  if py_eq_str status CONSUMER_STATUS.SUCCESS then
    ack ;; ret Next
  else if py_eq_str status CONSUMER_STATUS.FAILED_STOP then
    ret Break
  else if py_eq_str status CONSUMER_STATUS.SUCCESS_STOP then
    ack ;; ret Break
  else
    set_retry true ;; ret Continue.

(** From the inner [try] to [retry = False]. *)
Definition attempt : M X Ctl :=
  r <- try_except
         (m <- get_message ;;
          status <- call m ;;
          ret (inl status))
         (fun e =>
            log (LogCallerException e) ;;
            set_retry true ;;
            ret (inr Continue)) ;;
  match r with
  | inr c => ret c
  | inl status =>
      c <- dispatch status ;;
      match c with
      | Next => set_retry false ;; ret Next
      | _ => ret c
      end
  end.

(** The body of [while not self._stop.is_set()]. *)
Definition iteration : M X Ctl :=
  try_except
    (again <- get_retry ;;
     if negb again then
       m <- receive (CORTX_HA_WAIT_TIMEOUT C) ;;
       set_message m ;;
       match m with
       | None => ret Continue
       | Some _ => attempt
       end
     else attempt)
    (fun e =>
       log (LogBusException e) ;;
       set_retry false ;;
       ret Next).

(** The [while] loop; [true] when it was left, [false] when the fuel
    ran out first. *)
Fixpoint main_loop (fuel : nat) : M X bool :=
  match fuel with
  | O => ret false
  | S n =>
      stopped <- is_set ;;
      if stopped then ret true
      else
        c <- iteration ;;
        match c with
        | Break => ret true
        | _ => main_loop n
        end
  end.

(** The [while True] loop under [if self.flush_on_exit]. *)
Fixpoint flush_loop (fuel : nat) : M X bool :=
  match fuel with
  | O => ret false
  | S n =>
      m <- receive 1 ;;
      set_message m ;;
      match m with
      | None => ret true
      | Some m' => log (LogFlushing m') ;; ack ;; flush_loop n
      end
  end.

(** The part of [run] after the [while] loop. *)
Definition flush_on_exit_part (fuel : nat) : M X Outcome :=
  s <- get_self ;;
  if flush_on_exit s then
    log (LogFlushPending (message_type s)) ;;
    left <- flush_loop fuel ;;
    ret (if left then Returned else OutOfFuel)
  else ret Returned.

(** [MessageBusConsumer.run] *)
Definition run (fuel : nat) : M X Outcome :=
  set_retry false ;;
  left <- main_loop fuel ;;
  if left then flush_on_exit_part fuel else ret OutOfFuel.

End Worker.

(** The frame [run] starts in: no local is bound yet. *)
Definition start_frame {X : Type} (w : World X) : Frame X := mkFrame false None w.

(** ** class MessageBusProducer *)

(** What [publish] relies on: [json.dumps] and the transport's
    [MessageProducer.send], which is handed a Python list. *)
Record ProducerDeps (T : Type) : Type := mkProducerDeps {
  json_dumps : PyValue -> Result string;
  producer_send : list PyValue -> T -> Result unit * T
}.
Arguments json_dumps {T} p v.
Arguments producer_send {T} p batch t.

(** [str(v)] for the values that reach the [else] branch of [publish];
    a list or a dict never does, and theirs is left out. *)
Definition py_str (v : PyValue) : string :=
  match v with
  | PyNone => "None"
  | PyBool true => "True"
  | PyBool false => "False"
  | PyInt z => NilZero.string_of_int (Z.to_int z)
  | PyStr s => s
  | PyObject _ text => text
  | PyList _ | PyDict _ => EmptyString
  end.

(** [MessageBusProducer.publish]: the result, the batches handed to
    [send] in order, and the transport afterwards. *)
Definition publish {T : Type} (P : ProducerDeps T) (message : PyValue) (t : T)
  : Result unit * list (list PyValue) * T :=
  match message with
  | PyDict _ =>
      match json_dumps P message with
      | Ok s => let '(r, t') := producer_send P [PyStr s] t in (r, [[PyStr s]], t')
      | Raise e => (Raise e, [], t)
      end
  | PyStr _ =>
      let '(r, t') := producer_send P [message] t in (r, [[message]], t')
  | PyList l =>
      let '(r, t') := producer_send P l t in (r, [l], t')
  | _ =>
      (Raise (mkExn "Exception" ("Invalid type of message " ++ py_str message)%string), [], t)
  end.

(** The shapes of the specification. *)
Definition is_str (v : PyValue) : bool :=
  match v with PyStr _ => true | _ => false end.

Definition is_mapping (v : PyValue) : bool :=
  match v with PyDict _ => true | _ => false end.

Definition is_list (v : PyValue) : bool :=
  match v with PyList _ => true | _ => false end.

Definition is_sequence_of_strings (v : PyValue) : bool :=
  match v with PyList l => forallb is_str l | _ => false end.

(** The exception of the [else] branch, InvalidPayloadType in the
    specification. *)
Definition is_invalid_payload {A : Type} (r : Result A) : bool :=
  match r with
  | Raise e => String.eqb (exn_class e) "Exception"
               && String.prefix "Invalid type of message " (exn_text e)
  | Ok _ => false
  end.

(** ** class MessageBus: register *)

(** The transport's administrative interface, [MessageBusAdmin]. *)
Record Admin (A : Type) : Type := mkAdmin {
  new_admin : string -> A -> Result unit * A;
  list_message_types : A -> Result (list string) * A;
  register_message_type : list string -> Z -> A -> Result unit * A
}.
Arguments new_admin {A} a admin_id t.
Arguments list_message_types {A} a t.
Arguments register_message_type {A} a message_types partitions t.

Inductive AdminCall : Type :=
| CallNew (admin_id : string)
| CallList
| CallRegister (message_types : list string) (partitions : Z).

Definition ADMIN_ID : string := "ha_admin".

(** [message_type in l] *)
Definition mem_str (x : string) (l : list string) : bool :=
  existsb (String.eqb x) l.

(** The statements under [try] in [register]. *)
Definition register_try {A : Type} (D : Admin A) (message_type : string)
    (partitions : Z) (t : A) : Result unit * list AdminCall * A :=
  match list_message_types D t with
  | (Raise e, t1) => (Raise e, [CallList], t1)
  | (Ok known, t1) =>
      if negb (mem_str message_type known) then
        let '(r, t2) := register_message_type D [message_type] partitions t1 in
        (r, [CallList; CallRegister [message_type] partitions], t2)
      else (Ok tt, [CallList], t1)
  end.

(** [MessageBus.register]; [partitions = None] is the default of 1. *)
Definition register {A : Type} (D : Admin A) (message_type : string)
    (partitions : option Z) (t : A) : Result unit * list AdminCall * A :=
  let partitions := match partitions with Some p => p | None => 1 end in
  match new_admin D ADMIN_ID t with
  | (Raise e, t0) => (Raise e, [CallNew ADMIN_ID], t0)
  | (Ok _, t0) =>
      match register_try D message_type partitions t0 with
      | (Raise e, calls, t1) =>
          if negb (str_in "TOPIC_ALREADY_EXISTS" (exn_text e))
          then (Raise e, CallNew ADMIN_ID :: calls, t1)
          else (Ok tt, CallNew ADMIN_ID :: calls, t1)
      | (Ok u, calls, t1) => (Ok u, CallNew ADMIN_ID :: calls, t1)
      end
  end.

(** ** Test doubles *)

(** A scripted transport and handler for a worker.  [topic] is what the
    next polls find: a message, or a failure of the transport; a poll of
    an empty topic returns nothing.  [answers] is what the handler does on
    its next invocations (it returns SUCCESS once the script is used up);
    [ack_results] is what the next calls of [ack] do (they succeed once
    the script is used up); [stopper = Some (n, flush, late)] is another
    thread that, while the worker is inside its [n]-th next poll, calls
    [stop(flush)] and then puts [late] on the topic. *)
Record Double : Type := mkDouble {
  topic : list (Result Message);
  answers : list (Result PyValue);
  ack_results : list (Result unit);
  stopper : option (nat * bool * list (Result Message))
}.

Definition double_other_thread (w : World Double) : World Double :=
  let d := ext w in
  match stopper d with
  | None => w
  | Some (O, flush, late) =>
      stop flush (mkWorld (self w)
                    (mkDouble (topic d ++ late) (answers d) (ack_results d) None))
  | Some (S n, flush, late) =>
      mkWorld (self w)
        (mkDouble (topic d) (answers d) (ack_results d) (Some (n, flush, late)))
  end.

Definition double_receive (t : Z) (w : World Double)
  : Result (option Message) * World Double :=
  let d := ext w in
  match topic d with
  | [] => (Ok None, double_other_thread w)
  | found :: rest =>
      (match found with Ok m => Ok (Some m) | Raise e => Raise e end,
       double_other_thread
         (mkWorld (self w) (mkDouble rest (answers d) (ack_results d) (stopper d))))
  end.

Definition double_ack (w : World Double) : Result unit * World Double :=
  let d := ext w in
  match ack_results d with
  | [] => (Ok tt, w)
  | r :: rest => (r, mkWorld (self w) (mkDouble (topic d) (answers d) rest (stopper d)))
  end.

Definition double_callback (m : Message) (w : World Double)
  : Result PyValue * World Double :=
  let d := ext w in
  match answers d with
  | [] => (Ok (PyStr CONSUMER_STATUS.SUCCESS), w)
  | r :: rest => (r, mkWorld (self w) (mkDouble (topic d) rest (ack_results d) (stopper d)))
  end.

(** The double as collaborators, with [wait] for [CORTX_HA_WAIT_TIMEOUT]. *)
Definition double (wait : Z) : Collaborators Double :=
  mkCollaborators Double wait double_receive double_ack double_callback.

(** A world with a fresh consumer from [get_consumer] and its defaults. *)
Definition double_world (d : Double) : World Double :=
  mkWorld (get_consumer 1 "ha-group" "ha-events" None None None) d.

(** A transport administration with a race: [listed] are the types its
    listing shows, [unlisted] are types another registrant has created
    since.  Registering a type that exists fails the way Kafka does. *)
Record AdminDouble : Type := mkAdminDouble {
  listed : list string;
  unlisted : list string
}.

Definition already_exists (message_type : string) : Exn :=
  mkExn "MessageBusError"
    ("Admin operation fails for " ++ message_type
     ++ ". KafkaError{code=TOPIC_ALREADY_EXISTS,val=36}")%string.

Definition admin_double : Admin AdminDouble :=
  mkAdmin AdminDouble
    (fun _ t => (Ok tt, t))
    (fun t => (Ok (listed t), t))
    (fun message_types _ t =>
       match message_types with
       | [mt] =>
           if mem_str mt (listed t) || mem_str mt (unlisted t)
           then (Raise (already_exists mt), t)
           else (Ok tt, mkAdminDouble (listed t ++ [mt]) (unlisted t))
       | _ => (Raise (mkExn "MessageBusError" "unsupported by the double"), t)
       end).

Definition dquote : string := String (ascii_of_nat 34) EmptyString.

(** A recording transport for [publish]: it keeps every batch it is sent. *)
Definition recorder : ProducerDeps (list (list PyValue)) :=
  mkProducerDeps (list (list PyValue))
    (fun v => match v with
              | PyDict [(PyStr k, PyInt z)] =>
                  Ok ("{" ++ dquote ++ k ++ dquote ++ ": " ++ py_str (PyInt z) ++ "}")%string
              | _ => Raise (mkExn "TypeError" "not serializable by the double")
              end)
    (fun batch t => (Ok tt, t ++ [batch])).

(** ** Vocabulary of the properties *)

(** Successful acknowledgments and handler invocations in a trace. *)
Definition is_ack (ev : Event) : bool :=
  match ev with EvAck (Ok _) => true | _ => false end.

Definition is_ack_call (ev : Event) : bool :=
  match ev with EvAck _ => true | _ => false end.

Definition is_callback (ev : Event) : bool :=
  match ev with EvCallback _ _ => true | _ => false end.

Definition is_receive (ev : Event) : bool :=
  match ev with EvReceive _ _ => true | _ => false end.

Definition is_flag_check (ev : Event) : bool :=
  match ev with EvIsSet _ => true | _ => false end.

Definition count (p : Event -> bool) (t : list Event) : nat :=
  List.length (filter p t).

(** The trace of a computation, and the loop going on after a prefix. *)
Definition trace_of {X A : Type} (x : Result A * list Event * Frame X) : list Event :=
  snd (fst x).

Definition then_loop {X : Type} (C : Collaborators X) (n : nat)
    (t : list Event) (f : Frame X) : Result bool * list Event * Frame X :=
  let '(r, t', f') := main_loop C n f in (r, t ++ t', f').

(** In frame [f] the worker hands [m] to the handler: after a poll that
    returned [m], or, when [retry] is set, at once and with no poll.
    [pre] is what it does before the handler is invoked, and the last
    argument is the frame the handler is invoked in. *)
Inductive delivers {X : Type} (C : Collaborators X) (f : Frame X) (m : Message)
  : list Event -> Frame X -> Prop :=
| delivers_polled (w1 : World X) :
    retry f = false ->
    consumer_receive C (CORTX_HA_WAIT_TIMEOUT C) (world f) = (Ok (Some m), w1) ->
    delivers C f m [EvReceive (CORTX_HA_WAIT_TIMEOUT C) (Ok (Some m))]
      (mkFrame false (Some m) w1)
| delivers_again :
    retry f = true ->
    message f = Some m ->
    delivers C f m [] f.

(** Unless the stop flag is set, the next thing the loop does in frame [f]
    after checking the flag is a poll of the transport. *)
Definition polls_next {X : Type} (C : Collaborators X) (f : Frame X) : Prop :=
  _stop (self (world f)) = false ->
  forall k : nat,
  exists t : list Event,
    trace_of (main_loop C (S k) f)
    = EvIsSet false
      :: EvReceive (CORTX_HA_WAIT_TIMEOUT C)
           (fst (consumer_receive C (CORTX_HA_WAIT_TIMEOUT C) (world f)))
      :: t.

(** [k] further invocations of the handler on [m], each one made with the
    stop flag unset and each returning an unrecognised value: what the
    loop does in them, and the world they leave. *)
Fixpoint retrying {X : Type} (C : Collaborators X) (m : Message) (k : nat)
    (w : World X) : option (list Event * World X) :=
  match k with
  | O => Some ([], w)
  | S k' =>
      if _stop (self w) then None
      else
        match callback C m w with
        | (Ok status, w') =>
            if unrecognised status then
              match retrying C m k' w' with
              | Some (t, w'') => Some (EvIsSet false :: EvCallback m (Ok status) :: t, w'')
              | None => None
              end
            else None
        | (Raise _, _) => None
        end
  end.

(** *** The phases of the worker

    The states of the specification's machine, as they show in a trace:
    [AtCheck] is the head of the loop, where the stop flag is tested;
    [Polling] is POLLING; [Handling] is HANDLING; [Left] is the loop
    left (STOPPED, or DRAINING to come).  [AtCheck (Some m)] holds the
    message a retry is outstanding for. *)
Inductive Phase : Type :=
| AtCheck (held : option Message)
| Polling
| Handling (m : Message)
| CallerFault (m : Message)   (* the handler raised: the log call comes *)
| Acking (stopping : bool)    (* SUCCESS or SUCCESS_STOP: the ack comes *)
| BusFault                    (* the transport raised: the log call comes *)
| Left.

Definition after_check (held : option Message) : Phase :=
  match held with
  | None => Polling
  | Some m => Handling m
  end.

Definition after_status (m : Message) (status : PyValue) : Phase :=
  if py_eq_str status CONSUMER_STATUS.SUCCESS then Acking false
  else if py_eq_str status CONSUMER_STATUS.FAILED_STOP then Left
  else if py_eq_str status CONSUMER_STATUS.SUCCESS_STOP then Acking true
  else AtCheck (Some m).

(** The one event a phase allows next, and the phase it leads to. *)
Definition phase_step (wait : Z) (p : Phase) (ev : Event) : option Phase :=
  match p, ev with
  | AtCheck _, EvIsSet true => Some Left
  | AtCheck held, EvIsSet false => Some (after_check held)
  | Polling, EvReceive t r =>
      if Z.eqb t wait then
        match r with
        | Ok None => Some (AtCheck None)
        | Ok (Some m) => Some (Handling m)
        | Raise _ => Some BusFault
        end
      else None
  | Handling m, EvCallback m' r =>
      if String.eqb m m' then
        match r with
        | Ok status => Some (after_status m status)
        | Raise _ => Some (CallerFault m)
        end
      else None
  | CallerFault m, EvLog (LogCallerException _) => Some (AtCheck (Some m))
  | Acking stopping, EvAck (Ok _) => Some (if stopping then Left else AtCheck None)
  | Acking _, EvAck (Raise _) => Some BusFault
  | BusFault, EvLog (LogBusException _) => Some (AtCheck None)
  | _, _ => None
  end.

Fixpoint phase_run (wait : Z) (p : Phase) (t : list Event) : option Phase :=
  match t with
  | [] => Some p
  | ev :: rest =>
      match phase_step wait p ev with
      | Some q => phase_run wait q rest
      | None => None
      end
  end.

(** A trace was followed to its end, and it ends between two iterations
    or with the loop left: no iteration is cut short. *)
Definition between_iterations (p : option Phase) : bool :=
  match p with
  | Some (AtCheck _) | Some Left => true
  | _ => false
  end.

(** The message a frame holds for a retry. *)
Definition held {X : Type} (f : Frame X) : option Message :=
  if retry f then message f else None.

(** [retry] is only ever set with a message bound. *)
Definition coherent {X : Type} (f : Frame X) : bool :=
  negb (retry f) || match message f with Some _ => true | None => false end.

(** What the flush loop does for the messages [ms] it receives. *)
Definition drained (ms : list Message) : list Event :=
  flat_map (fun m => [EvReceive 1 (Ok (Some m)); EvLog (LogFlushing m); EvAck (Ok tt)]) ms.

(** What a transport holds for a flush: from the world [w], the polls with
    the timeout 1 return the messages [ms] one after the other, each of
    them acknowledged with success, and the poll after them returns
    nothing and leaves the world [w']. *)
Inductive drains {X : Type} (C : Collaborators X)
  : World X -> list Message -> World X -> Prop :=
| drains_empty (w w' : World X) :
    consumer_receive C 1 w = (Ok None, w') ->
    drains C w [] w'
| drains_message (w w1 w2 w' : World X) (m : Message) (ms : list Message) :
    consumer_receive C 1 w = (Ok (Some m), w1) ->
    consumer_ack C w1 = (Ok tt, w2) ->
    drains C w2 ms w' ->
    drains C w (m :: ms) w'.

(** A poll that returned a message. *)
Definition is_delivery (ev : Event) : bool :=
  match ev with EvReceive _ (Ok (Some _)) => true | _ => false end.

(** Every poll in a trace is made with the timeout [t]. *)
Definition polls_with (t : Z) (tr : list Event) : Prop :=
  Forall (fun ev => match ev with EvReceive t' _ => t' = t | _ => True end) tr.

(** ** Further vocabulary of the worker *)

(** What the handler does when it never gets done with a message: it
    raises, or it returns an unrecognised value. *)
Definition poisoned (r : Result PyValue) : bool :=
  match r with
  | Raise _ => true
  | Ok status => unrecognised status
  end.

(** The phases from which no acknowledgment can come before a poll has
    returned a message. *)
Definition needs_poll (p : Phase) : bool :=
  match p with
  | AtCheck None | Polling | BusFault | Left => true
  | _ => false
  end.

(** A handler that raises on every message, on a topic that never runs
    dry. *)
Definition stubborn : Collaborators unit :=
  mkCollaborators unit 2
    (fun _ w => (Ok (Some "m"), w))
    (fun w => (Ok tt, w))
    (fun _ w => (Raise (mkExn "ValueError" "cannot handle"), w)).

Definition is_log (ev : Event) : bool :=
  match ev with EvLog _ => true | _ => false end.

(** Every invocation of the handler in a trace is on the message of the
    last poll that returned one; [cur] is that message at the start. *)
Fixpoint calls_on_last_polled (cur : option Message) (t : list Event) : bool :=
  match t with
  | [] => true
  | EvReceive _ (Ok (Some m)) :: rest => calls_on_last_polled (Some m) rest
  | EvCallback m _ :: rest =>
      match cur with
      | Some m' => String.eqb m m' && calls_on_last_polled cur rest
      | None => false
      end
  | _ :: rest => calls_on_last_polled cur rest
  end.

(** The message a phase is about. *)
Definition phase_holds (p : Phase) (cur : option Message) : Prop :=
  match p with
  | Handling m | CallerFault m | AtCheck (Some m) => cur = Some m
  | _ => True
  end.

(** ** class MessageBus: deregister *)

(** The administrative interface with [deregister_message_type]. *)
Record AdminOps (A : Type) : Type := mkAdminOps {
  ops_admin : Admin A;
  deregister_message_type : list string -> A -> Result unit * A
}.
Arguments ops_admin {A} a.
Arguments deregister_message_type {A} a message_types t.

Inductive DeregisterCall : Type :=
| DCallNew (admin_id : string)
| DCallList
| DCallDeregister (message_types : list string).

(** [MessageBus.deregister] *)
Definition deregister {A : Type} (D : AdminOps A) (message_type : string) (t : A)
  : Result unit * list DeregisterCall * A :=
  match new_admin (ops_admin D) ADMIN_ID t with
  | (Raise e, t0) => (Raise e, [DCallNew ADMIN_ID], t0)
  | (Ok _, t0) =>
      match list_message_types (ops_admin D) t0 with
      | (Raise e, t1) => (Raise e, [DCallNew ADMIN_ID; DCallList], t1)
      | (Ok known, t1) =>
          if mem_str message_type known then
            let '(r, t2) := deregister_message_type D [message_type] t1 in
            (r, [DCallNew ADMIN_ID; DCallList; DCallDeregister [message_type]], t2)
          else (Ok tt, [DCallNew ADMIN_ID; DCallList], t1)
      end
  end.

(** What [register] and [deregister] need of a transport for the one to
    undo the other: making the handle changes nothing, [listing] is what
    [list_message_types] returns, registering a type that is not listed
    lists it, and deregistering a listed type takes it off the listing. *)
Definition keeps_listing {A : Type} (D : AdminOps A) (listing : A -> list string) : Prop :=
  (forall (admin_id : string) (t : A), new_admin (ops_admin D) admin_id t = (Ok tt, t))
  /\ (forall t : A, list_message_types (ops_admin D) t = (Ok (listing t), t))
  /\ (forall (mt : string) (p : Z) (t : A),
         mem_str mt (listing t) = false ->
         exists t' : A,
           register_message_type (ops_admin D) [mt] p t = (Ok tt, t')
           /\ mem_str mt (listing t') = true)
  /\ (forall (mt : string) (t : A),
         mem_str mt (listing t) = true ->
         exists t' : A,
           deregister_message_type D [mt] t = (Ok tt, t')
           /\ mem_str mt (listing t') = false).

(** A transport that is the list of its message types. *)
Definition plain_admin : AdminOps (list string) :=
  mkAdminOps (list string)
    (mkAdmin (list string)
       (fun _ t => (Ok tt, t))
       (fun t => (Ok t, t))
       (fun message_types _ t =>
          match message_types with
          | [mt] =>
              if mem_str mt t then (Raise (already_exists mt), t)
              else (Ok tt, t ++ [mt])
          | _ => (Raise (mkExn "MessageBusError" "unsupported by the double"), t)
          end))
    (fun message_types t =>
       match message_types with
       | [mt] =>
           if mem_str mt t
           then (Ok tt, filter (fun x => negb (String.eqb mt x)) t)
           else (Raise (mkExn "MessageBusError" "UNKNOWN_TOPIC_OR_PART"), t)
       | _ => (Raise (mkExn "MessageBusError" "unsupported by the double"), t)
       end).

(** ** class HASupportBundle ([ha/core/support_bundle/ha_support_bundle.py]) *)

(** What [str2bool] is handed: the string of the command line, or the
    [bool] of a default. *)
Inductive BoolArg : Type :=
| ArgBool (b : bool)
| ArgStr (s : string).

(** [str.lower()].  A [str] is held by its bytes, and only the ASCII
    letters are mapped: no other character becomes a letter of [true] or
    [false]. *)
Definition ascii_lower (c : ascii) : ascii :=
  let n := nat_of_ascii c in
  if (65 <=? n)%nat && (n <=? 90)%nat then ascii_of_nat (n + 32) else c.

Fixpoint lower (s : string) : string :=
  match s with
  | EmptyString => EmptyString
  | String c rest => String (ascii_lower c) (lower rest)
  end.

(** [HASupportBundle.str2bool]; [('true')] is the string, so [in] is the
    test for a substring. *)
Definition str2bool (value : BoolArg) : Result bool :=
  match value with
  | ArgBool b => Ok b
  | ArgStr s =>
      if str_in (lower s) "true" then Ok true
      else if str_in (lower s) "false" then Ok false
      else Raise (mkExn "ArgumentTypeError" "Boolean value expected.")
  end.

(** The strings that start a string, and the strings inside it. *)
Fixpoint prefixes (y : string) : list string :=
  EmptyString
  :: match y with
     | EmptyString => []
     | String c rest => map (String c) (prefixes rest)
     end.

Fixpoint fragments (y : string) : list string :=
  prefixes y
  ++ match y with
     | EmptyString => []
     | String _ rest => fragments rest
     end.

(** [p.endswith('/')] *)
Fixpoint ends_with_sep (p : string) : bool :=
  match p with
  | EmptyString => false
  | String c EmptyString => Ascii.eqb c "/"
  | String _ rest => ends_with_sep rest
  end.

(** [os.path.join(a, b)] of [posixpath]. *)
Definition path_join (a b : string) : string :=
  if String.prefix "/" b then b
  else if String.eqb a EmptyString || ends_with_sep a then (a ++ b)%string
  else (a ++ "/" ++ b)%string.

(** ['/' in p] and [os.path.basename(p)] of [posixpath]. *)
Fixpoint has_sep (p : string) : bool :=
  match p with
  | EmptyString => false
  | String c rest => Ascii.eqb c "/" || has_sep rest
  end.

Fixpoint basename (p : string) : string :=
  match p with
  | EmptyString => EmptyString
  | String c rest =>
      if has_sep rest then basename rest
      else if Ascii.eqb c "/" then rest
      else p
  end.

(** The file system and [tarfile], and the constants of [ha.const]. *)
Record BundleDeps (F : Type) : Type := mkBundleDeps {
  _sb_default_path : string;
  _sb_tar_name : string;
  _sb_tmp_src : string;
  path_exists : string -> F -> bool;
  makedirs : string -> F -> Result unit * F;
  (* with tarfile.open(name, 'w:gz') as tar: tar.add(src, arcname=arcname) *)
  tar_write : string -> string -> string -> F -> Result unit * F
}.
Arguments _sb_default_path {F} b.
Arguments _sb_tar_name {F} b.
Arguments _sb_tmp_src {F} b.
Arguments path_exists {F} b p t.
Arguments makedirs {F} b p t.
Arguments tar_write {F} b name src arcname t.

Inductive FsCall : Type :=
| FsExists (p : string)
| FsMakedirs (p : string)
| FsTarWrite (name src arcname : string).

(** The directory and the file [__generate_tar] works out. *)
Definition tar_target_path {F : Type} (B : BundleDeps F) (target_path : option string)
  : string :=
  path_join (match target_path with Some p => p | None => _sb_default_path B end) "ha".

Definition tar_file_name {F : Type} (B : BundleDeps F) (bundle_id target_path : option string)
  : string :=
  let tar_name :=
    match bundle_id with
    | Some b => if String.eqb b EmptyString then _sb_tar_name B else b
    | None => _sb_tar_name B
    end in
  path_join (tar_target_path B target_path) (tar_name ++ ".tar.gz")%string.

(** [HASupportBundle.__generate_tar] *)
Definition generate_tar {F : Type} (B : BundleDeps F) (bundle_id target_path : option string)
    (t : F) : Result unit * list FsCall * F :=
  let dir := tar_target_path B target_path in
  let name := tar_file_name B bundle_id target_path in
  let write (calls : list FsCall) (t1 : F) :=
    let '(r, t2) := tar_write B name (_sb_tmp_src B) (basename (_sb_tmp_src B)) t1 in
    (r, calls ++ [FsTarWrite name (_sb_tmp_src B) (basename (_sb_tmp_src B))], t2) in
  if path_exists B dir t then write [FsExists dir] t
  else
    match makedirs B dir t with
    | (Ok _, t1) => write [FsExists dir; FsMakedirs dir] t1
    | (Raise e, t1) => (Raise e, [FsExists dir; FsMakedirs dir], t1)
    end.

(** ** class Ipmitool ([ha/util/ipmitool.py]) *)

(** [d.popitem()]: the pair a [dict] got last. *)
Definition popitem (v : PyValue) : Result (PyValue * PyValue) :=
  match v with
  | PyDict d =>
      match rev d with
      | kv :: _ => Ok kv
      | [] => Raise (mkExn "KeyError" "popitem(): dictionary is empty")
      end
  | _ => Raise (mkExn "AttributeError" "object has no attribute 'popitem'")
  end.

(** [v[key]] for a string [key], on the values [ast.literal_eval] gives. *)
Definition getitem (v : PyValue) (key : string) : Result PyValue :=
  match v with
  | PyDict d =>
      match find (fun kv => py_eq_str (fst kv) key) d with
      | Some kv => Ok (snd kv)
      | None => Raise (mkExn "KeyError" key)
      end
  | _ => Raise (mkExn "TypeError" "indices must be integers or object is not subscriptable")
  end.

(** The configuration store, [ast.literal_eval], the formatting of a value
    in an f-string, [SimpleCommand.run_cmd], and the names of [ha.const]. *)
Record IpmiDeps (W : Type) : Type := mkIpmiDeps {
  NODE_BMC_INFO_KEY : string;
  IPMI_IPADDR : string;
  IPMI_USER : string;
  IPMI_PASSWORD : string;
  confstore_get : string -> W -> Result PyValue * W;
  literal_eval : PyValue -> Result PyValue;
  format_value : PyValue -> Result string;
  run_cmd : string -> W -> Result unit * W
}.
Arguments NODE_BMC_INFO_KEY {W} i.
Arguments IPMI_IPADDR {W} i.
Arguments IPMI_USER {W} i.
Arguments IPMI_PASSWORD {W} i.
Arguments confstore_get {W} i key w.
Arguments literal_eval {W} i v.
Arguments format_value {W} i v.
Arguments run_cmd {W} i cmd w.

Definition result_bind {A B : Type} (r : Result A) (k : A -> Result B) : Result B :=
  match r with
  | Ok a => k a
  | Raise e => Raise e
  end.

(** The command line of [power_off], from the evaluated BMC information. *)
Definition ipmitool_command {W : Type} (D : IpmiDeps W) (bmc_info_dict : PyValue)
  : Result string :=
  result_bind (getitem bmc_info_dict (IPMI_IPADDR D)) (fun ip =>
  result_bind (format_value D ip) (fun ip_text =>
  result_bind (getitem bmc_info_dict (IPMI_USER D)) (fun user =>
  result_bind (format_value D user) (fun user_text =>
  result_bind (getitem bmc_info_dict (IPMI_PASSWORD D)) (fun password =>
  result_bind (format_value D password) (fun password_text =>
  Ok ("ipmitool -I lanplus -H " ++ ip_text ++ " -U " ++ user_text
      ++ " -P " ++ password_text ++ " chassis status")%string)))))).

(** The statements under [try] in [power_off]: the result, the commands
    run, and the world. *)
Definition power_off_try {W : Type} (D : IpmiDeps W) (nodeid : string) (w : W)
  : Result unit * list string * W :=
  match confstore_get D (NODE_BMC_INFO_KEY D ++ "/node/" ++ nodeid)%string w with
  | (Raise e, w1) => (Raise e, [], w1)
  | (Ok PyNone, w1) => (Ok tt, [], w1)
  | (Ok bmc_info, w1) =>
      match
        result_bind (popitem bmc_info) (fun kv =>
        result_bind (literal_eval D (snd kv)) (fun bmc_info_dict =>
        ipmitool_command D bmc_info_dict))
      with
      | Raise e => (Raise e, [], w1)
      | Ok cmd => let '(r, w2) := run_cmd D cmd w1 in (r, [cmd], w2)
      end
  end.

(** The exception [power_off] raises; its text is not an f-string. *)
Definition ipmitool_failed : Exn :=
  mkExn "Exception" "Failed to run IPMItool Command. Error : {e}".

(** [Ipmitool.power_off] *)
Definition power_off {W : Type} (D : IpmiDeps W) (nodeid : string) (w : W)
  : Result unit * list string * W :=
  match power_off_try D nodeid w with
  | (Raise _, cmds, w1) => (Raise ipmitool_failed, cmds, w1)
  | ok => ok
  end.

(** A store with one node, whose BMC information is already evaluated. *)
Definition ipmi_double : IpmiDeps unit :=
  mkIpmiDeps unit "bmc" "ipmi_ipaddr" "ipmi_user" "ipmi_password"
    (fun key w =>
       if String.eqb key "bmc/node/n1"
       then (Ok (PyDict [(PyStr "bmc/node/n1",
                           PyDict [(PyStr "ipmi_ipaddr", PyStr "10.0.0.1");
                                   (PyStr "ipmi_user", PyStr "admin");
                                   (PyStr "ipmi_password", PyStr "secret")])]), w)
       else if String.eqb key "bmc/node/n2"
       then (Ok (PyDict [(PyStr "bmc/node/n2", PyDict [(PyStr "ipmi_user", PyStr "admin")])]), w)
       else (Ok PyNone, w))
    (fun v => Ok v)
    (fun v => match v with PyStr s => Ok s | _ => Ok (py_str v) end)
    (fun _ w => (Ok tt, w)).

(** A file system with nothing in it, that records nothing. *)
Definition bundle_double : BundleDeps unit :=
  mkBundleDeps unit "/tmp/cortx/support_bundle/" "ha" "/tmp/cortx/ha_tmp"
    (fun _ _ => false)
    (fun _ t => (Ok tt, t))
    (fun _ _ _ t => (Ok tt, t)).

(** The calls a run on the file system made. *)
Definition trace_calls {A F : Type} (x : Result A * list FsCall * F) : list FsCall :=
  snd (fst x).

(** ** Properties of the worker loop *)

Ltac worker_unfold :=
  unfold then_loop, trace_of, iteration, attempt, dispatch, receive, ack, call,
    get_message, get_retry, set_retry, set_message, is_set, log, raise,
    try_except, bind, ret in *.

Ltac worker_run :=
  worker_unfold;
  repeat (progress (cbn in *)
          || match goal with H : ?l = _ |- context [?l] => rewrite H end);
  try reflexivity.

Ltac by_delivery Hd :=
  let w1 := fresh "w1" in
  let Hr := fresh "Hr" in
  let Hp := fresh "Hp" in
  let Hm := fresh "Hm" in
  destruct Hd as [w1 Hr Hp | Hr Hm];
  match goal with f : Frame _ |- _ => destruct f; cbn in * end; subst.

Lemma count_app (p : Event -> bool) (a b : list Event) :
  count p (a ++ b) = (count p a + count p b)%nat.
Proof. unfold count. rewrite filter_app, length_app. reflexivity. Qed.

Lemma phase_run_app (wait : Z) (p : Phase) (a b : list Event) :
  phase_run wait p (a ++ b)
  = match phase_run wait p a with
    | Some q => phase_run wait q b
    | None => None
    end.
Proof.
  revert p. induction a as [|ev a IH]; intros p; cbn; [reflexivity|].
  destruct (phase_step wait p ev); auto.
Qed.

Lemma phase_run_polls_with (wait : Z) (t : list Event) :
  forall p q : Phase, phase_run wait p t = Some q -> polls_with wait t.
Proof.
  induction t as [|ev t IH]; intros p q H; [constructor|].
  cbn in H. destruct (phase_step wait p ev) as [p'|] eqn:Hstep; [|discriminate].
  constructor; [|eapply IH; eauto].
  destruct ev; auto.
  destruct p; cbn in Hstep; try discriminate.
  destruct (Z.eqb timeout0 wait) eqn:E; [|discriminate].
  apply Z.eqb_eq. exact E.
Qed.

Lemma drained_counts (ms : list Message) :
  count is_callback (drained ms) = 0%nat
  /\ count is_ack (drained ms) = List.length ms
  /\ count is_receive (drained ms) = List.length ms
  /\ polls_with 1 (drained ms).
Proof.
  induction ms as [|m ms (Hc & Ha & Hr & Hp)]; cbn.
  - repeat split. constructor.
  - cbn in *. repeat split; auto.
    unfold polls_with. repeat constructor. exact Hp.
Qed.

Ltac phase_done :=
  let H := fresh "H" in
  intros H; inversion H; subst; cbn;
  repeat (progress (rewrite ?Z.eqb_refl, ?String.eqb_refl; unfold after_status;
                    repeat match goal with
                           | E : py_eq_str _ _ = _ |- _ => rewrite E
                           end;
                    cbn));
  auto.

(** The ways through one iteration, one goal each. *)
Ltac iteration_cases C :=
  worker_unfold; cbn;
  repeat match goal with
         | |- context [consumer_receive C ?t ?w] =>
             destruct (consumer_receive C t w) as [[[?|]|?] ?] eqn:?; cbn
         | |- context [callback C ?m ?w] =>
             destruct (callback C m w) as [[?|?] ?] eqn:?; cbn
         | |- context [py_eq_str ?v ?c] =>
             destruct (py_eq_str v c) eqn:?; cbn
         | |- context [consumer_ack C ?w] =>
             destruct (consumer_ack C w) as [[?|?] ?] eqn:?; cbn
         end.

Section WorkerFacts.
Context {X : Type} (C : Collaborators X).

(** *** One iteration, case by case *)

Lemma iteration_idle (f : Frame X) (w1 : World X) :
  retry f = false ->
  consumer_receive C (CORTX_HA_WAIT_TIMEOUT C) (world f) = (Ok None, w1) ->
  iteration C f
  = (Ok Continue, [EvReceive (CORTX_HA_WAIT_TIMEOUT C) (Ok None)], mkFrame false None w1).
Proof. intros Hr Hp. destruct f; cbn in *; subst. worker_run. Qed.

Lemma iteration_receive_raises (f : Frame X) (e : Exn) (w1 : World X) :
  retry f = false ->
  consumer_receive C (CORTX_HA_WAIT_TIMEOUT C) (world f) = (Raise e, w1) ->
  iteration C f
  = (Ok Next,
     [EvReceive (CORTX_HA_WAIT_TIMEOUT C) (Raise e); EvLog (LogBusException e)],
     mkFrame false (message f) w1).
Proof. intros Hr Hp. destruct f; cbn in *; subst. worker_run. Qed.

Lemma iteration_success (f f1 : Frame X) (m : Message) (pre : list Event)
    (w2 w3 : World X) :
  delivers C f m pre f1 ->
  callback C m (world f1) = (Ok (PyStr CONSUMER_STATUS.SUCCESS), w2) ->
  consumer_ack C w2 = (Ok tt, w3) ->
  iteration C f
  = (Ok Next,
     pre ++ [EvCallback m (Ok (PyStr CONSUMER_STATUS.SUCCESS)); EvAck (Ok tt)],
     mkFrame false (Some m) w3).
Proof. intros Hd Hcb Hack. by_delivery Hd; worker_run. Qed.

Lemma iteration_success_ack_raises (f f1 : Frame X) (m : Message)
    (pre : list Event) (e : Exn) (w2 w3 : World X) :
  delivers C f m pre f1 ->
  callback C m (world f1) = (Ok (PyStr CONSUMER_STATUS.SUCCESS), w2) ->
  consumer_ack C w2 = (Raise e, w3) ->
  iteration C f
  = (Ok Next,
     pre ++ [EvCallback m (Ok (PyStr CONSUMER_STATUS.SUCCESS)); EvAck (Raise e);
             EvLog (LogBusException e)],
     mkFrame false (Some m) w3).
Proof. intros Hd Hcb Hack. by_delivery Hd; worker_run. Qed.

Lemma iteration_failed_stop (f f1 : Frame X) (m : Message) (pre : list Event)
    (w2 : World X) :
  delivers C f m pre f1 ->
  callback C m (world f1) = (Ok (PyStr CONSUMER_STATUS.FAILED_STOP), w2) ->
  iteration C f
  = (Ok Break,
     pre ++ [EvCallback m (Ok (PyStr CONSUMER_STATUS.FAILED_STOP))],
     mkFrame (retry f) (Some m) w2).
Proof. intros Hd Hcb. by_delivery Hd; worker_run. Qed.

Lemma iteration_success_stop (f f1 : Frame X) (m : Message) (pre : list Event)
    (w2 w3 : World X) :
  delivers C f m pre f1 ->
  callback C m (world f1) = (Ok (PyStr CONSUMER_STATUS.SUCCESS_STOP), w2) ->
  consumer_ack C w2 = (Ok tt, w3) ->
  iteration C f
  = (Ok Break,
     pre ++ [EvCallback m (Ok (PyStr CONSUMER_STATUS.SUCCESS_STOP)); EvAck (Ok tt)],
     mkFrame (retry f) (Some m) w3).
Proof. intros Hd Hcb Hack. by_delivery Hd; worker_run. Qed.

Lemma iteration_success_stop_ack_raises (f f1 : Frame X) (m : Message)
    (pre : list Event) (e : Exn) (w2 w3 : World X) :
  delivers C f m pre f1 ->
  callback C m (world f1) = (Ok (PyStr CONSUMER_STATUS.SUCCESS_STOP), w2) ->
  consumer_ack C w2 = (Raise e, w3) ->
  iteration C f
  = (Ok Next,
     pre ++ [EvCallback m (Ok (PyStr CONSUMER_STATUS.SUCCESS_STOP)); EvAck (Raise e);
             EvLog (LogBusException e)],
     mkFrame false (Some m) w3).
Proof. intros Hd Hcb Hack. by_delivery Hd; worker_run. Qed.

Lemma iteration_unrecognised (f f1 : Frame X) (m : Message) (pre : list Event)
    (status : PyValue) (w2 : World X) :
  delivers C f m pre f1 ->
  callback C m (world f1) = (Ok status, w2) ->
  unrecognised status = true ->
  iteration C f
  = (Ok Continue, pre ++ [EvCallback m (Ok status)], mkFrame true (Some m) w2).
Proof.
  intros Hd Hcb Hu. unfold unrecognised in Hu.
  apply andb_true_iff in Hu as [Hu H3]. apply andb_true_iff in Hu as [H1 H2].
  apply negb_true_iff in H1, H2, H3.
  by_delivery Hd; worker_run.
Qed.

Lemma iteration_callback_raises (f f1 : Frame X) (m : Message) (pre : list Event)
    (e : Exn) (w2 : World X) :
  delivers C f m pre f1 ->
  callback C m (world f1) = (Raise e, w2) ->
  iteration C f
  = (Ok Continue,
     pre ++ [EvCallback m (Raise e); EvLog (LogCallerException e)],
     mkFrame true (Some m) w2).
Proof. intros Hd Hcb. by_delivery Hd; worker_run. Qed.

(** An iteration never lets an exception out. *)
Lemma iteration_total (f : Frame X) :
  exists (c : Ctl) (t : list Event) (f' : Frame X), iteration C f = (Ok c, t, f').
Proof.
  destruct f as [rt msg w]. worker_unfold. cbn.
  destruct rt; cbn.
  - destruct msg as [m|]; cbn; [|eauto].
    destruct (callback C m w) as [[status|e] w2]; cbn; [|eauto].
    destruct (py_eq_str status CONSUMER_STATUS.SUCCESS); cbn.
    { destruct (consumer_ack C w2) as [[u|e] w3]; cbn; eauto. }
    destruct (py_eq_str status CONSUMER_STATUS.FAILED_STOP); cbn; [eauto|].
    destruct (py_eq_str status CONSUMER_STATUS.SUCCESS_STOP); cbn; [|eauto].
    destruct (consumer_ack C w2) as [[u|e] w3]; cbn; eauto.
  - destruct (consumer_receive C (CORTX_HA_WAIT_TIMEOUT C) w) as [[[m|]|e] w1];
      cbn; [|eauto|eauto].
    destruct (callback C m w1) as [[status|e] w2]; cbn; [|eauto].
    destruct (py_eq_str status CONSUMER_STATUS.SUCCESS); cbn.
    { destruct (consumer_ack C w2) as [[u|e] w3]; cbn; eauto. }
    destruct (py_eq_str status CONSUMER_STATUS.FAILED_STOP); cbn; [eauto|].
    destruct (py_eq_str status CONSUMER_STATUS.SUCCESS_STOP); cbn; [|eauto].
    destruct (consumer_ack C w2) as [[u|e] w3]; cbn; eauto.
Qed.

(** With [retry] unset an iteration starts with a poll. *)
Lemma iteration_polls_first (f : Frame X) :
  retry f = false ->
  exists t : list Event,
    trace_of (iteration C f)
    = EvReceive (CORTX_HA_WAIT_TIMEOUT C)
        (fst (consumer_receive C (CORTX_HA_WAIT_TIMEOUT C) (world f))) :: t.
Proof.
  intros Hr. destruct f as [rt msg w]. cbn in *. subst. worker_unfold. cbn.
  destruct (consumer_receive C (CORTX_HA_WAIT_TIMEOUT C) w) as [[[m|]|e] w1];
    cbn; [|eauto|eauto].
  destruct (callback C m w1) as [[status|e] w2]; cbn; [|eauto].
  destruct (py_eq_str status CONSUMER_STATUS.SUCCESS); cbn.
  { destruct (consumer_ack C w2) as [[u|e] w3]; cbn; eauto. }
  destruct (py_eq_str status CONSUMER_STATUS.FAILED_STOP); cbn; [eauto|].
  destruct (py_eq_str status CONSUMER_STATUS.SUCCESS_STOP); cbn; [|eauto].
  destruct (consumer_ack C w2) as [[u|e] w3]; cbn; eauto.
Qed.

(** *** The loop around it *)

Lemma main_loop_continues (n : nat) (f f' : Frame X) (c : Ctl) (t : list Event) :
  _stop (self (world f)) = false ->
  iteration C f = (Ok c, t, f') ->
  c <> Break ->
  main_loop C (S n) f = then_loop C n (EvIsSet false :: t) f'.
Proof.
  intros Hs Hi Hc. unfold then_loop. simpl.
  unfold bind at 1. unfold is_set. rewrite Hs.
  unfold bind. rewrite Hi.
  destruct c; try congruence; simpl; destruct (main_loop C n f') as [[r t'] f''];
    reflexivity.
Qed.

Lemma main_loop_breaks (n : nat) (f f' : Frame X) (t : list Event) :
  _stop (self (world f)) = false ->
  iteration C f = (Ok Break, t, f') ->
  main_loop C (S n) f = (Ok true, EvIsSet false :: t, f').
Proof.
  intros Hs Hi. simpl.
  unfold bind at 1. unfold is_set. rewrite Hs.
  unfold bind. rewrite Hi. cbn. rewrite app_nil_r. reflexivity.
Qed.

Lemma main_loop_trace (n : nat) (f : Frame X) :
  _stop (self (world f)) = false ->
  exists t : list Event,
    trace_of (main_loop C (S n) f) = EvIsSet false :: trace_of (iteration C f) ++ t.
Proof.
  intros Hs. destruct (iteration_total f) as (c & t & f' & Hi).
  destruct c.
  - rewrite (main_loop_continues n f f' Next t Hs Hi) by discriminate.
    rewrite Hi. unfold then_loop, trace_of.
    destruct (main_loop C n f') as [[r t'] f'']. cbn. eauto.
  - rewrite (main_loop_continues n f f' Continue t Hs Hi) by discriminate.
    rewrite Hi. unfold then_loop, trace_of.
    destruct (main_loop C n f') as [[r t'] f'']. cbn. eauto.
  - rewrite (main_loop_breaks n f f' t Hs Hi). rewrite Hi. cbn.
    exists []. rewrite app_nil_r. reflexivity.
Qed.

Lemma fresh_frame_polls_next (f : Frame X) :
  retry f = false -> polls_next C f.
Proof.
  intros Hr Hs k.
  destruct (main_loop_trace k f Hs) as [t Ht].
  destruct (iteration_polls_first f Hr) as [t' Ht'].
  rewrite Ht, Ht'. cbn. eauto.
Qed.

Lemma main_loop_stopped (n : nat) (f : Frame X) :
  _stop (self (world f)) = true ->
  main_loop C (S n) f = (Ok true, [EvIsSet true], f).
Proof.
  intros Hs. simpl. unfold bind, is_set. rewrite Hs. reflexivity.
Qed.

Lemma then_loop_then_loop (n k : nat) (t t' : list Event) (f f' : Frame X) :
  main_loop C k f = then_loop C n t' f' ->
  then_loop C k t f = then_loop C n (t ++ t') f'.
Proof.
  intros H. unfold then_loop in *. rewrite H.
  destruct (main_loop C n f') as [[r t''] f'']. rewrite app_assoc. reflexivity.
Qed.

Lemma then_loop_nil (n : nat) (f : Frame X) :
  main_loop C n f = then_loop C n [] f.
Proof.
  unfold then_loop. destruct (main_loop C n f) as [[r t] f']. reflexivity.
Qed.

Lemma delivers_no_ack (f f1 : Frame X) (m : Message) (pre : list Event) :
  delivers C f m pre f1 ->
  forall rest : list Event,
    count is_ack_call (EvIsSet false :: pre ++ rest) = count is_ack_call rest
    /\ count is_ack (EvIsSet false :: pre ++ rest) = count is_ack rest
    /\ count is_callback (EvIsSet false :: pre ++ rest) = count is_callback rest.
Proof. intros [w1 Hr Hp | Hr Hm] rest; cbn; auto. Qed.

Lemma retried_frame_delivers (m : Message) (w : World X) :
  delivers C (mkFrame true (Some m) w) m [] (mkFrame true (Some m) w).
Proof. apply delivers_again; reflexivity. Qed.

(** With [retry] set an iteration goes to the handler at once and never
    polls. *)
Lemma iteration_retry_no_poll (m : Message) (w : World X) :
  (exists t : list Event,
      trace_of (iteration C (mkFrame true (Some m) w))
      = EvCallback m (fst (callback C m w)) :: t)
  /\ count is_receive (trace_of (iteration C (mkFrame true (Some m) w))) = 0%nat.
Proof.
  worker_unfold. cbn.
  destruct (callback C m w) as [[status|e] w2]; cbn; [|eauto].
  destruct (py_eq_str status CONSUMER_STATUS.SUCCESS); cbn.
  { destruct (consumer_ack C w2) as [[u|e] w3]; cbn; eauto. }
  destruct (py_eq_str status CONSUMER_STATUS.FAILED_STOP); cbn; [eauto|].
  destruct (py_eq_str status CONSUMER_STATUS.SUCCESS_STOP); cbn; [|eauto].
  destruct (consumer_ack C w2) as [[u|e] w3]; cbn; eauto.
Qed.

Lemma retrying_loop (m : Message) (k : nat) :
  forall (n : nat) (w w' : World X) (t : list Event),
    retrying C m k w = Some (t, w') ->
    main_loop C (k + n) (mkFrame true (Some m) w)
    = then_loop C n t (mkFrame true (Some m) w')
    /\ count is_ack_call t = 0%nat
    /\ count is_receive t = 0%nat
    /\ count is_callback t = k.
Proof.
  induction k as [|k IH]; intros n w w' t H; cbn [retrying] in H.
  - inversion H; subst. cbn. auto using then_loop_nil.
  - destruct (_stop (self w)) eqn:Hs; [discriminate|].
    destruct (callback C m w) as [[status|e] w1] eqn:Hcb; [|discriminate].
    destruct (unrecognised status) eqn:Hu; [|discriminate].
    destruct (retrying C m k w1) as [[t1 w2]|] eqn:Hk; [|discriminate].
    inversion H; subst. clear H.
    destruct (IH n w1 w' t1 Hk) as (Hloop & Ha & Hr & Hc).
    pose proof (iteration_unrecognised _ _ m [] status w1
                  (retried_frame_delivers m w) Hcb Hu) as Hi.
    cbn [Nat.add].
    rewrite (main_loop_continues (k + n) (mkFrame true (Some m) w) _ Continue _ Hs Hi)
      by discriminate.
    cbn [app]. split.
    + rewrite (then_loop_then_loop n (k + n) _ t1 _ _ Hloop). reflexivity.
    + cbn. cbn in Ha, Hr, Hc. auto.
Qed.

(** *** The outcomes of the handler *)

(** C1. For a message the loop hands to the handler: when the handler
    returns PROCESSED or IGNORED (both SUCCESS), [ack] is called exactly
    once and the loop goes on with [retry] unset, so that it polls next;
    when it returns STOP_NO_ACK (FAILED_STOP) the loop is left with no
    call of [ack]; when it returns STOP_ACK (SUCCESS_STOP) the loop
    calls [ack] once and is left.  (The acknowledgment, where one is
    made, is taken to succeed.) *)
Theorem outcome_acknowledged_or_stopped (n : nat) (f f1 : Frame X) (m : Message)
    (pre : list Event) (o : HandlerOutcome) (w2 w3 : World X) :
  _stop (self (world f)) = false ->
  delivers C f m pre f1 ->
  callback C m (world f1) = (Ok (outcome_value o), w2) ->
  match o with
  | STOP_NO_ACK | RETRY => True
  | _ => consumer_ack C w2 = (Ok tt, w3)
  end ->
  let handled := EvCallback m (Ok (outcome_value o)) in
  match o with
  | PROCESSED | IGNORED =>
      main_loop C (S n) f
      = then_loop C n (EvIsSet false :: pre ++ [handled; EvAck (Ok tt)])
          (mkFrame false (Some m) w3)
      /\ count is_ack_call (EvIsSet false :: pre ++ [handled; EvAck (Ok tt)]) = 1%nat
      /\ polls_next C (mkFrame false (Some m) w3)
  | STOP_NO_ACK =>
      main_loop C (S n) f
      = (Ok true, EvIsSet false :: pre ++ [handled], mkFrame (retry f) (Some m) w2)
      /\ count is_ack_call (EvIsSet false :: pre ++ [handled]) = 0%nat
  | STOP_ACK =>
      main_loop C (S n) f
      = (Ok true, EvIsSet false :: pre ++ [handled; EvAck (Ok tt)],
         mkFrame (retry f) (Some m) w3)
      /\ count is_ack_call (EvIsSet false :: pre ++ [handled; EvAck (Ok tt)]) = 1%nat
  | RETRY =>
      main_loop C (S n) f
      = then_loop C n (EvIsSet false :: pre ++ [handled]) (mkFrame true (Some m) w2)
  end.
Proof.
  intros Hs Hd Hcb Hack handled. subst handled.
  destruct o; cbn [outcome_value] in *.
  - repeat split.
    + apply main_loop_continues with (c := Next); try discriminate; auto.
      apply iteration_success with (f1 := f1) (w2 := w2); auto.
    + destruct (delivers_no_ack _ _ _ _ Hd [EvCallback m (Ok (PyStr CONSUMER_STATUS.SUCCESS)); EvAck (Ok tt)])
        as (-> & _). reflexivity.
    + apply fresh_frame_polls_next. reflexivity.
  - repeat split.
    + apply main_loop_continues with (c := Next); try discriminate; auto.
      apply iteration_success with (f1 := f1) (w2 := w2); auto.
    + destruct (delivers_no_ack _ _ _ _ Hd [EvCallback m (Ok (PyStr CONSUMER_STATUS.SUCCESS)); EvAck (Ok tt)])
        as (-> & _). reflexivity.
    + apply fresh_frame_polls_next. reflexivity.
  - apply main_loop_continues with (c := Continue); try discriminate; auto.
    apply iteration_unrecognised with (f1 := f1); auto.
  - split.
    + apply main_loop_breaks; auto.
      apply iteration_failed_stop with (f1 := f1); auto.
    + destruct (delivers_no_ack _ _ _ _ Hd [EvCallback m (Ok (PyStr CONSUMER_STATUS.FAILED_STOP))])
        as (-> & _). reflexivity.
  - split.
    + apply main_loop_breaks; auto.
      apply iteration_success_stop with (f1 := f1) (w2 := w2); auto.
    + destruct (delivers_no_ack _ _ _ _ Hd [EvCallback m (Ok (PyStr CONSUMER_STATUS.SUCCESS_STOP)); EvAck (Ok tt)])
        as (-> & _). reflexivity.
Qed.

(** C2. When the handler returns RETRY (FAILED), a value outside the
    enumeration, or nothing ([None]), the loop makes no call of [ack],
    keeps the message and sets [retry]: its next iteration hands the
    same message to the handler at once, with no poll, and however many
    times the handler goes on answering so, the loop neither polls nor
    acknowledges in between. *)
Theorem unrecognised_outcome_retries_same_message (n : nat) (f f1 : Frame X)
    (m : Message) (pre : list Event) (status : PyValue) (w2 : World X) :
  _stop (self (world f)) = false ->
  delivers C f m pre f1 ->
  callback C m (world f1) = (Ok status, w2) ->
  unrecognised status = true ->
  let t := EvIsSet false :: pre ++ [EvCallback m (Ok status)] in
  let f' := mkFrame true (Some m) w2 in
  (unrecognised (outcome_value RETRY) = true /\ unrecognised PyNone = true)
  /\ main_loop C (S n) f = then_loop C n t f'
  /\ count is_ack_call t = 0%nat
  /\ delivers C f' m [] f'
  /\ (exists t' : list Event,
         trace_of (iteration C f') = EvCallback m (fst (callback C m w2)) :: t')
  /\ count is_receive (trace_of (iteration C f')) = 0%nat
  /\ (forall (k : nat) (tk : list Event) (wk : World X),
         retrying C m k w2 = Some (tk, wk) ->
         main_loop C (S (k + n)) f = then_loop C n (t ++ tk) (mkFrame true (Some m) wk)
         /\ count is_ack_call (t ++ tk) = 0%nat
         /\ count is_receive tk = 0%nat
         /\ count is_callback tk = k).
Proof.
  intros Hs Hd Hcb Hu t f'. subst t f'.
  pose proof (iteration_unrecognised _ _ _ _ _ _ Hd Hcb Hu) as Hi.
  destruct (delivers_no_ack _ _ _ _ Hd [EvCallback m (Ok status)]) as (Hack & _).
  split; [split; reflexivity|].
  split; [apply main_loop_continues with (c := Continue); try discriminate; auto|].
  split; [rewrite Hack; reflexivity|].
  split; [apply retried_frame_delivers|].
  split; [apply iteration_retry_no_poll|].
  split; [apply iteration_retry_no_poll|].
  intros k tk wk Hk.
  destruct (retrying_loop m k n w2 wk tk Hk) as (Hloop & Ha & Hr & Hc).
  repeat split; auto.
  - rewrite (main_loop_continues (k + n) f _ Continue _ Hs Hi) by discriminate.
    apply then_loop_then_loop. exact Hloop.
  - rewrite count_app, Hack, Ha. reflexivity.
Qed.

(** C3. When the handler raises, the exception is caught and logged, no
    call of [ack] is made and the loop goes on as for RETRY, with the
    same message and [retry] set.  If the handler then returns PROCESSED
    on its second invocation for the message, the two iterations hold
    exactly two invocations of the handler and exactly one
    acknowledgment. *)
Theorem handler_exception_is_retried (n : nat) (f f1 : Frame X) (m : Message)
    (pre : list Event) (e : Exn) (w2 : World X) :
  _stop (self (world f)) = false ->
  delivers C f m pre f1 ->
  callback C m (world f1) = (Raise e, w2) ->
  let t := EvIsSet false :: pre ++ [EvCallback m (Raise e); EvLog (LogCallerException e)] in
  let f' := mkFrame true (Some m) w2 in
  main_loop C (S n) f = then_loop C n t f'
  /\ count is_ack_call t = 0%nat
  /\ delivers C f' m [] f'
  /\ (forall w3 w4 : World X,
         _stop (self w2) = false ->
         callback C m w2 = (Ok (outcome_value PROCESSED), w3) ->
         consumer_ack C w3 = (Ok tt, w4) ->
         let t2 := t ++ [EvIsSet false; EvCallback m (Ok (outcome_value PROCESSED));
                         EvAck (Ok tt)] in
         main_loop C (S (S n)) f = then_loop C n t2 (mkFrame false (Some m) w4)
         /\ count is_callback t2 = 2%nat
         /\ count is_ack_call t2 = 1%nat
         /\ count is_ack t2 = 1%nat).
Proof.
  intros Hs Hd Hcb t f'. subst t f'.
  pose proof (iteration_callback_raises _ _ _ _ _ _ Hd Hcb) as Hi.
  destruct (delivers_no_ack _ _ _ _ Hd
              [EvCallback m (Raise e); EvLog (LogCallerException e)])
    as (Hack & Hack' & Hcall).
  split; [apply main_loop_continues with (c := Continue); try discriminate; auto|].
  split; [rewrite Hack; reflexivity|].
  split; [apply retried_frame_delivers|].
  intros w3 w4 Hs2 Hcb2 Hack2 t2. subst t2.
  pose proof (iteration_success _ _ m [] w3 w4 (retried_frame_delivers m w2) Hcb2 Hack2)
    as Hi2.
  split.
  - rewrite (main_loop_continues (S n) f _ Continue _ Hs Hi) by discriminate.
    apply then_loop_then_loop.
    apply (main_loop_continues n (mkFrame true (Some m) w2) _ Next _ Hs2 Hi2).
    discriminate.
  - rewrite !count_app, Hack, Hack', Hcall. cbn. auto.
Qed.

(** C8. An exception out of the transport's [receive] or [ack] is caught
    by the outer [except] of the loop and logged; [retry] is cleared and
    the loop goes on, so that its next iteration polls afresh. *)
Theorem transport_exception_suppressed (n : nat) (f : Frame X) :
  _stop (self (world f)) = false ->
  (forall (e : Exn) (w1 : World X),
      retry f = false ->
      consumer_receive C (CORTX_HA_WAIT_TIMEOUT C) (world f) = (Raise e, w1) ->
      main_loop C (S n) f
      = then_loop C n
          [EvIsSet false; EvReceive (CORTX_HA_WAIT_TIMEOUT C) (Raise e);
           EvLog (LogBusException e)]
          (mkFrame false (message f) w1)
      /\ polls_next C (mkFrame false (message f) w1))
  /\ (forall (f1 : Frame X) (m : Message) (pre : list Event) (e : Exn)
            (w2 w3 : World X),
         delivers C f m pre f1 ->
         callback C m (world f1) = (Ok (PyStr CONSUMER_STATUS.SUCCESS), w2) ->
         consumer_ack C w2 = (Raise e, w3) ->
         main_loop C (S n) f
         = then_loop C n
             (EvIsSet false
              :: pre ++ [EvCallback m (Ok (PyStr CONSUMER_STATUS.SUCCESS));
                         EvAck (Raise e); EvLog (LogBusException e)])
             (mkFrame false (Some m) w3)
         /\ polls_next C (mkFrame false (Some m) w3)).
Proof.
  intros Hs. split.
  - intros e w1 Hr Hp. split.
    + apply main_loop_continues with (c := Next); try discriminate; auto.
      apply iteration_receive_raises; auto.
    + apply fresh_frame_polls_next. reflexivity.
  - intros f1 m pre e w2 w3 Hd Hcb Hack. split.
    + apply main_loop_continues with (c := Next); try discriminate; auto.
      apply iteration_success_ack_raises with (f1 := f1) (w2 := w2); auto.
    + apply fresh_frame_polls_next. reflexivity.
Qed.

(** C10. When the handler returns STOP_ACK (SUCCESS_STOP) and the call of
    [ack] raises, the loop is not left: the exception is caught by the
    outer [except] and logged, [retry] is cleared, and the loop goes on
    to poll for new messages; the handler's request to stop is lost. *)
Theorem stop_ack_failure_discards_stop (n : nat) (f f1 : Frame X) (m : Message)
    (pre : list Event) (e : Exn) (w2 w3 : World X) :
  _stop (self (world f)) = false ->
  delivers C f m pre f1 ->
  callback C m (world f1) = (Ok (outcome_value STOP_ACK), w2) ->
  consumer_ack C w2 = (Raise e, w3) ->
  let t := EvIsSet false
           :: pre ++ [EvCallback m (Ok (outcome_value STOP_ACK)); EvAck (Raise e);
                      EvLog (LogBusException e)] in
  iteration C f = (Ok Next, tl t, mkFrame false (Some m) w3)
  /\ main_loop C (S n) f = then_loop C n t (mkFrame false (Some m) w3)
  /\ count is_ack t = 0%nat
  /\ polls_next C (mkFrame false (Some m) w3).
Proof.
  intros Hs Hd Hcb Hack t. subst t. cbn [outcome_value tl] in *.
  pose proof (iteration_success_stop_ack_raises _ _ _ _ _ _ _ Hd Hcb Hack) as Hi.
  split; [exact Hi|].
  split; [apply main_loop_continues with (c := Next); try discriminate; auto|].
  split.
  - destruct (delivers_no_ack _ _ _ _ Hd
                [EvCallback m (Ok (PyStr CONSUMER_STATUS.SUCCESS_STOP)); EvAck (Raise e);
                 EvLog (LogBusException e)]) as (_ & -> & _).
    reflexivity.
  - apply fresh_frame_polls_next. reflexivity.
Qed.

(** *** The stop flag and whole iterations *)

Lemma iteration_phases (f f' : Frame X) (c : Ctl) (t : list Event) :
  coherent f = true ->
  iteration C f = (Ok c, t, f') ->
  phase_run (CORTX_HA_WAIT_TIMEOUT C) (after_check (held f)) t
  = Some (match c with Break => Left | _ => AtCheck (held f') end)
  /\ coherent f' = true.
Proof.
  destruct f as [rt msg w]. unfold coherent, held. cbn.
  destruct rt; cbn.
  - destruct msg as [m|]; [|discriminate]. intros _.
    iteration_cases C; phase_done.
  - intros _. iteration_cases C; phase_done.
Qed.

Lemma main_loop_phases (n : nat) :
  forall f : Frame X,
    coherent f = true ->
    between_iterations
      (phase_run (CORTX_HA_WAIT_TIMEOUT C) (AtCheck (held f))
         (trace_of (main_loop C n f)))
    = true.
Proof.
  induction n as [|n IH]; intros f Hc; [reflexivity|].
  destruct (_stop (self (world f))) eqn:Hs.
  - rewrite (main_loop_stopped n f Hs). reflexivity.
  - destruct (iteration_total f) as (c & t & f' & Hi).
    destruct (iteration_phases f f' c t Hc Hi) as [Hrun Hc'].
    destruct c.
    + rewrite (main_loop_continues n f f' Next t Hs Hi) by discriminate.
      specialize (IH f' Hc'). unfold then_loop, trace_of in *.
      destruct (main_loop C n f') as [[r t'] f'']. cbn in *.
      rewrite phase_run_app, Hrun. exact IH.
    + rewrite (main_loop_continues n f f' Continue t Hs Hi) by discriminate.
      specialize (IH f' Hc'). unfold then_loop, trace_of in *.
      destruct (main_loop C n f') as [[r t'] f'']. cbn in *.
      rewrite phase_run_app, Hrun. exact IH.
    + rewrite (main_loop_breaks n f f' t Hs Hi). unfold trace_of. cbn.
      rewrite Hrun. reflexivity.
Qed.

Lemma iteration_no_flag_check (f : Frame X) :
  count is_flag_check (trace_of (iteration C f)) = 0%nat.
Proof.
  destruct f as [rt msg w]. destruct rt; [destruct msg as [m|]|];
    iteration_cases C; reflexivity.
Qed.

Lemma iteration_polled_trace (f : Frame X) (m : Message) (r : Result PyValue)
    (w1 w2 : World X) :
  retry f = false ->
  consumer_receive C (CORTX_HA_WAIT_TIMEOUT C) (world f) = (Ok (Some m), w1) ->
  callback C m w1 = (r, w2) ->
  exists t : list Event,
    trace_of (iteration C f)
    = EvReceive (CORTX_HA_WAIT_TIMEOUT C) (Ok (Some m)) :: EvCallback m r :: t.
Proof.
  intros Hr Hp Hcb. destruct f as [rt msg w]. cbn in *. subst.
  worker_unfold. cbn. rewrite Hp. cbn. rewrite Hcb. cbn.
  destruct r as [status|e]; cbn; [|eauto].
  iteration_cases C; eauto.
Qed.

(** C9. [stop] sets the stop flag (and the flush flag) and touches
    nothing else.  The body of the loop never reads the flag: in every
    trace of the loop the flag is tested only between whole iterations,
    where a polled message is always followed by the call of the handler
    on it and the handler's return by the acknowledgment it calls for.
    So a stop requested while the worker is inside a poll that returns a
    message leaves that message handled; and once the flag is seen set,
    the loop is left before any other poll. *)
Theorem stop_observed_between_iterations (n : nat) (f : Frame X) (flush : bool) :
  coherent f = true ->
  (_stop (self (stop flush (world f))) = true
   /\ flush_on_exit (self (stop flush (world f))) = flush
   /\ ext (stop flush (world f)) = ext (world f))
  /\ count is_flag_check (trace_of (iteration C f)) = 0%nat
  /\ between_iterations
       (phase_run (CORTX_HA_WAIT_TIMEOUT C) (AtCheck (held f))
          (trace_of (main_loop C n f)))
     = true
  /\ (forall (m : Message) (r : Result PyValue) (w1 w2 : World X),
         _stop (self (world f)) = false ->
         retry f = false ->
         consumer_receive C (CORTX_HA_WAIT_TIMEOUT C) (world f)
         = (Ok (Some m), stop flush w1) ->
         callback C m (stop flush w1) = (r, w2) ->
         exists t : list Event,
           trace_of (main_loop C (S n) f)
           = EvIsSet false
             :: EvReceive (CORTX_HA_WAIT_TIMEOUT C) (Ok (Some m))
             :: EvCallback m r :: t)
  /\ (_stop (self (world f)) = true ->
       main_loop C (S n) f = (Ok true, [EvIsSet true], f)).
Proof.
  intros Hc.
  split; [repeat split|].
  split; [apply iteration_no_flag_check|].
  split; [apply main_loop_phases; exact Hc|].
  split; [|apply main_loop_stopped].
  intros m r w1 w2 Hs Hr Hp Hcb.
  destruct (main_loop_trace n f Hs) as [t Ht].
  destruct (iteration_polled_trace f m r _ w2 Hr Hp Hcb) as [t' Ht'].
  rewrite Ht, Ht'. cbn. eauto.
Qed.

(** *** Flushing on exit *)

Lemma flush_loop_shape (n : nat) :
  forall f : Frame X,
  exists (ms : list Message) (rest : list Event) (r : Result bool) (f' : Frame X),
    flush_loop C n f = (r, drained ms ++ rest, f')
    /\ match r with
       | Ok true => rest = [EvReceive 1 (Ok None)]
       | Ok false => rest = [] /\ List.length ms = n
       | Raise e =>
           rest = [EvReceive 1 (Raise e)]
           \/ exists m : Message,
               rest = [EvReceive 1 (Ok (Some m)); EvLog (LogFlushing m); EvAck (Raise e)]
       end.
Proof.
  induction n as [|n IH]; intros f.
  - exists [], [], (Ok false), f. cbn. auto.
  - cbn [flush_loop]. worker_unfold.
    destruct (consumer_receive C 1 (world f)) as [[[m|]|e] w1] eqn:Hp; cbn.
    + destruct (consumer_ack C w1) as [[[]|e] w2] eqn:Ha; cbn.
      * destruct (IH (mkFrame (retry f) (Some m) w2)) as (ms & rest & r & f' & Hl & Hr).
        exists (m :: ms), rest, r, f'. unfold bind in Hl. rewrite Hl. cbn.
        split; [reflexivity|].
        destruct r as [[|]|e]; auto.
        destruct Hr as [-> Hn]. split; [reflexivity|]. rewrite Hn. reflexivity.
      * exists [], [EvReceive 1 (Ok (Some m)); EvLog (LogFlushing m); EvAck (Raise e)],
          (Raise e), (mkFrame (retry f) (Some m) w2). cbn. eauto.
    + exists [], [EvReceive 1 (Ok None)], (Ok true), (mkFrame (retry f) None w1).
      cbn. auto.
    + exists [], [EvReceive 1 (Raise e)], (Raise e), (mkFrame (retry f) (message f) w1).
      cbn. auto.
Qed.

(** [run] is the loop, then the flush part in the frame the loop left. *)
Lemma run_after_loop (n : nat) (f f1 f2 : Frame X) (t t' : list Event)
    (r : Result Outcome) :
  main_loop C n (mkFrame false (message f) (world f)) = (Ok true, t, f1) ->
  flush_on_exit_part C n f1 = (r, t', f2) ->
  run C n f = (r, t ++ t', f2).
Proof.
  intros Hl Hf. unfold run, set_retry, bind at 1 2. rewrite Hl, Hf. reflexivity.
Qed.

Lemma flush_loop_drains (w w' : World X) (ms : list Message) :
  drains C w ms w' ->
  forall (n : nat) (again : bool) (msg : option Message),
    (List.length ms < n)%nat ->
    flush_loop C n (mkFrame again msg w)
    = (Ok true, drained ms ++ [EvReceive 1 (Ok None)], mkFrame again None w').
Proof.
  induction 1 as [w w' Hp | w w1 w2 w' m ms Hp Ha Hd IH]; intros n again msg Hn.
  - destruct n as [|n]; [inversion Hn|].
    cbn [flush_loop]. worker_unfold. cbn. rewrite Hp. reflexivity.
  - destruct n as [|n]; [inversion Hn|].
    cbn [flush_loop]. worker_unfold. cbn. rewrite Hp. cbn. rewrite Ha. cbn.
    cbn in Hn. apply PeanoNat.lt_S_n in Hn.
    specialize (IH n again (Some m) Hn). unfold bind in IH. rewrite IH. reflexivity.
Qed.

Lemma flush_loop_calls (n : nat) (f : Frame X) :
  count is_callback (trace_of (flush_loop C n f)) = 0%nat
  /\ count is_ack_call (trace_of (flush_loop C n f))
     = count is_delivery (trace_of (flush_loop C n f)).
Proof.
  destruct (flush_loop_shape n f) as (ms & rest & r & f' & Hl & Hr).
  rewrite Hl. unfold trace_of. cbn [fst snd]. rewrite !count_app.
  assert (Hms : count is_callback (drained ms) = 0%nat
                /\ count is_ack_call (drained ms) = count is_delivery (drained ms)).
  { clear. unfold count, drained.
    induction ms as [|m ms [H1 H2]]; [split; reflexivity|].
    cbn. split; [exact H1|]. rewrite H2. reflexivity. }
  destruct Hms as [-> ->].
  destruct r as [[|]|e].
  - subst rest. split; reflexivity.
  - destruct Hr as [-> _]. split; reflexivity.
  - destruct Hr as [-> | [m ->]]; split; reflexivity.
Qed.

(** C4. With the stop flag and the flush flag set, the loop is left at
    the next test of the flag and the worker flushes.  When the transport
    holds the messages [ms], the flush is exactly this: a poll with the
    timeout 1 and a call of [ack] for each of them, in order, and a last
    poll that returns nothing, after which [run] returns; every one of
    the messages is acknowledged and the handler is never invoked.  And
    whatever the transport does, a flush never invokes the handler and
    calls [ack] once for every message a poll of it returns. *)
Theorem flush_drains_without_handler (n : nat) (f : Frame X) (ms : list Message)
    (w' : World X) :
  _stop (self (world f)) = true ->
  flush_on_exit (self (world f)) = true ->
  drains C (world f) ms w' ->
  (List.length ms < n)%nat ->
  let flushed :=
    EvLog (LogFlushPending (message_type (self (world f))))
    :: drained ms ++ [EvReceive 1 (Ok None)] in
  main_loop C n f = (Ok true, [EvIsSet true], f)
  /\ flush_on_exit_part C n f = (Ok Returned, flushed, mkFrame (retry f) None w')
  /\ run C n f = (Ok Returned, EvIsSet true :: flushed, mkFrame false None w')
  /\ count is_callback flushed = 0%nat
  /\ count is_ack flushed = List.length ms
  /\ count is_receive flushed = S (List.length ms)
  /\ polls_with 1 flushed
  /\ (forall (k : nat) (g : Frame X),
         count is_callback (trace_of (flush_loop C k g)) = 0%nat
         /\ count is_ack_call (trace_of (flush_loop C k g))
            = count is_delivery (trace_of (flush_loop C k g))).
Proof.
  intros Hs Hf Hd Hn flushed.
  destruct n as [|n]; [inversion Hn|].
  assert (Hpart : forall again msg,
             flush_on_exit_part C (S n) (mkFrame again msg (world f))
             = (Ok Returned, flushed, mkFrame again None w')).
  { intros again msg. unfold flush_on_exit_part, get_self, log, bind, ret.
    cbn [world self]. rewrite Hf.
    rewrite (flush_loop_drains _ _ _ Hd (S n) again msg Hn).
    subst flushed. cbn. rewrite app_nil_r. reflexivity. }
  destruct (drained_counts ms) as (Hc & Ha & Hr & Hp).
  split; [apply main_loop_stopped; exact Hs|].
  split; [destruct f as [again msg w]; apply Hpart|].
  split.
  { apply (run_after_loop (S n) f (mkFrame false (message f) (world f))
             (mkFrame false None w') [EvIsSet true] flushed (Ok Returned)).
    - apply main_loop_stopped. exact Hs.
    - apply Hpart. }
  subst flushed.
  change (EvLog (LogFlushPending (message_type (self (world f))))
          :: drained ms ++ [EvReceive 1 (Ok None)])
    with ([EvLog (LogFlushPending (message_type (self (world f))))]
          ++ drained ms ++ [EvReceive 1 (Ok None)]).
  split; [rewrite !count_app, Hc; reflexivity|].
  split; [rewrite !count_app, Ha; cbn; lia|].
  split; [rewrite !count_app, Hr; cbn; lia|].
  split.
  { apply Forall_app. split; [repeat constructor|].
    apply Forall_app. split; [exact Hp|repeat constructor]. }
  intros k g. apply flush_loop_calls.
Qed.

(** *** The timeouts of the polls *)

Lemma flush_loop_polls_with (n : nat) (f : Frame X) :
  polls_with 1 (trace_of (flush_loop C n f)).
Proof.
  destruct (flush_loop_shape n f) as (ms & rest & r & f' & Hl & Hr).
  destruct (drained_counts ms) as (_ & _ & _ & Hp).
  rewrite Hl. unfold trace_of. cbn. apply Forall_app. split; [exact Hp|].
  destruct r as [[|]|e].
  - subst. repeat constructor.
  - destruct Hr as [-> _]. constructor.
  - destruct Hr as [-> | [m ->]]; repeat constructor.
Qed.

Lemma iteration_polls_with (f : Frame X) :
  polls_with (CORTX_HA_WAIT_TIMEOUT C) (trace_of (iteration C f)).
Proof.
  destruct f as [rt msg w]. destruct rt; [destruct msg as [m|]|];
    iteration_cases C; repeat constructor.
Qed.

Lemma main_loop_polls_with (n : nat) :
  forall f : Frame X,
    polls_with (CORTX_HA_WAIT_TIMEOUT C) (trace_of (main_loop C n f)).
Proof.
  induction n as [|n IH]; intros f; [constructor|].
  destruct (_stop (self (world f))) eqn:Hs.
  - rewrite (main_loop_stopped n f Hs). repeat constructor.
  - destruct (iteration_total f) as (c & t & f' & Hi).
    pose proof (iteration_polls_with f) as Ht. rewrite Hi in Ht.
    unfold trace_of in Ht. cbn in Ht.
    assert (Hgo : c <> Break ->
                  polls_with (CORTX_HA_WAIT_TIMEOUT C) (trace_of (main_loop C (S n) f))).
    { intros Hne. rewrite (main_loop_continues n f f' c t Hs Hi Hne).
      specialize (IH f'). unfold then_loop, trace_of in *.
      destruct (main_loop C n f') as [[r t'] f'']. cbn in *.
      constructor; [exact I|]. apply Forall_app. split; assumption. }
    destruct c; try (apply Hgo; discriminate).
    rewrite (main_loop_breaks n f f' t Hs Hi). unfold trace_of. cbn.
    constructor; [exact I|assumption].
Qed.

(** Every poll of the loop is made with the constant
    [CORTX_HA_WAIT_TIMEOUT], and every poll of the flush with the timeout
    1, whatever [timeout] the consumer was built with. *)
Theorem polls_use_fixed_timeouts (n : nat) (f : Frame X) :
  polls_with (CORTX_HA_WAIT_TIMEOUT C) (trace_of (main_loop C n f))
  /\ polls_with 1 (trace_of (flush_on_exit_part C n f)).
Proof.
  split; [apply main_loop_polls_with|].
  unfold flush_on_exit_part, get_self, log, bind, ret, trace_of. cbn.
  destruct (flush_on_exit (self (world f))); [|constructor].
  pose proof (flush_loop_polls_with n f) as H. unfold trace_of in H.
  destruct (flush_loop C n f) as [[[b|e] t] f']; cbn in *.
  - constructor; [exact I|]. rewrite app_nil_r. exact H.
  - constructor; [exact I|exact H].
Qed.

End WorkerFacts.

(** A consumer built with the receive timeout 30 polls a transport whose
    [CORTX_HA_WAIT_TIMEOUT] is 2 with the timeout 2: the polls are not made
    with the timeout of the consumer. *)
Lemma poll_ignores_configured_timeout :
  ~ (forall (X : Type) (C : Collaborators X) (n : nat) (f : Frame X),
        polls_with (timeout (self (world f))) (trace_of (main_loop C n f))).
Proof.
  intros H.
  specialize (H Double (double 2) 1%nat
                (start_frame
                   (mkWorld (get_consumer 1 "ha-group" "ha-events" None None (Some 30))
                      (mkDouble [Ok "m1"] [] [] None)))).
  cbn in H. inversion H as [|ev t _ Ht]; subst.
  inversion Ht as [|ev' t' Hev _]; subst.
  discriminate Hev.
Qed.

(** C5. [get_consumer] documents [timeout] as the time the worker waits
    for a message (0, the default, to block), and [__init__] stores it;
    but the worker never reads it.  Whatever the consumer was built with,
    every poll of its loop is made with [CORTX_HA_WAIT_TIMEOUT], the first
    one included. *)
Lemma configured_timeout_is_never_used (wait configured : Z) (n : nat) (d : Double) :
  let w := mkWorld (get_consumer 1 "ha-group" "ha-events" None None (Some configured)) d in
  timeout (self w) = configured
  /\ polls_with wait (trace_of (main_loop (double wait) n (start_frame w)))
  /\ exists t : list Event,
       trace_of (main_loop (double wait) (S n) (start_frame w))
       = EvIsSet false :: EvReceive wait (fst (double_receive wait w)) :: t.
Proof.
  intros w. split; [reflexivity|].
  split; [apply (main_loop_polls_with (double wait))|].
  apply (fresh_frame_polls_next (double wait) (start_frame w)); reflexivity.
Qed.

(** ** Properties of the producer *)

(** C6, as the specification has it, fails: a list with an element that is
    not a string is handed to the transport as it is, and [publish] raises
    nothing. *)
Lemma publish_sends_list_with_non_string :
  ~ (forall (T : Type) (P : ProducerDeps T) (message : PyValue) (t : T),
        is_mapping message = false ->
        is_str message = false ->
        is_sequence_of_strings message = false ->
        is_invalid_payload (fst (fst (publish P message t))) = true
        /\ snd (fst (publish P message t)) = []).
Proof.
  intros H.
  destruct (H _ recorder (PyList [PyStr "x"; PyInt 42]) [] eq_refl eq_refl eq_refl)
    as [Hraise _].
  discriminate Hraise.
Qed.

Lemma prefix_append (p x : string) : String.prefix p (p ++ x)%string = true.
Proof.
  induction p as [|c p IH]; cbn.
  - destruct x; reflexivity.
  - destruct (ascii_dec c c) as [_|Hne]; [exact IH|congruence].
Qed.

(** C6, as the code has it.  [publish] hands a mapping to [json.dumps] as
    it is and sends the string it returns as a batch of one element; it
    sends a string as a batch of one element; it sends a list as it is,
    whatever its elements are; for a value of any other type it raises
    its exception and sends nothing. *)
Theorem publish_by_shape {T : Type} (P : ProducerDeps T) (message : PyValue) (t : T) :
  (is_mapping message = true ->
   match json_dumps P message with
   | Ok s =>
       publish P message t
       = (fst (producer_send P [PyStr s] t), [[PyStr s]],
          snd (producer_send P [PyStr s] t))
   | Raise e => publish P message t = (Raise e, [], t)
   end)
  /\ (is_str message = true ->
      publish P message t
      = (fst (producer_send P [message] t), [[message]],
         snd (producer_send P [message] t)))
  /\ (forall l : list PyValue,
        message = PyList l ->
        publish P message t
        = (fst (producer_send P l t), [l], snd (producer_send P l t)))
  /\ (is_mapping message = false ->
      is_str message = false ->
      is_list message = false ->
      is_invalid_payload (fst (fst (publish P message t))) = true
      /\ snd (fst (publish P message t)) = []
      /\ snd (publish P message t) = t).
Proof.
  repeat split.
  - destruct message; try discriminate. intros _. cbn.
    destruct (json_dumps P (PyDict d)) as [s|e]; [|reflexivity].
    destruct (producer_send P [PyStr s] t); reflexivity.
  - destruct message; try discriminate. intros _. cbn.
    destruct (producer_send P [PyStr s] t); reflexivity.
  - intros l ->. cbn. destruct (producer_send P l t); reflexivity.
  - destruct message; try discriminate; cbn [publish fst is_invalid_payload exn_class exn_text];
      rewrite prefix_append; reflexivity.
  - destruct message; try discriminate; reflexivity.
  - destruct message; try discriminate; reflexivity.
Qed.

(** ** Properties of [register] *)

Lemma str_in_already_exists (message_type : string) :
  str_in "TOPIC_ALREADY_EXISTS" (exn_text (already_exists message_type)) = true.
Proof.
  unfold already_exists. cbn [exn_text].
  set (tail := (". KafkaError{code=TOPIC_ALREADY_EXISTS,val=36}")%string).
  assert (Htail : str_in "TOPIC_ALREADY_EXISTS" tail = true) by reflexivity.
  assert (Happ : forall a : string,
             str_in "TOPIC_ALREADY_EXISTS" (a ++ tail)%string = true).
  { induction a as [|c a IH]; [exact Htail|].
    cbn [String.append str_in].
    destruct (String.prefix "TOPIC_ALREADY_EXISTS" (String c (a ++ tail))); auto. }
  change ("Admin operation fails for " ++ message_type ++ tail)%string
    with ("Admin operation fails for " ++ (message_type ++ tail))%string.
  generalize (Happ message_type). generalize (message_type ++ tail)%string.
  intros rest Hrest.
  repeat (cbn [String.append str_in];
          match goal with
          | |- (if ?b then true else _) = true => destruct b; [reflexivity|]
          end).
  exact Hrest.
Qed.

Lemma mem_str_app (x : string) (l : list string) :
  mem_str x (l ++ [x]) = true.
Proof.
  unfold mem_str. rewrite existsb_app. cbn. rewrite String.eqb_refl.
  rewrite orb_true_r. reflexivity.
Qed.

(** C7. [register] asks the transport for its message types and registers
    the type only when it is not among them.  A failure whose text holds
    TOPIC_ALREADY_EXISTS is swallowed and the call returns normally; any
    other failure is raised to the caller.  So [register] never raises an
    already-exists failure, and on a transport whose only failure is that
    one, registering a type twice returns normally both times, also when
    another registrant has created the type meanwhile. *)
Theorem register_tolerates_existing {A : Type} (D : Admin A) (message_type : string)
    (partitions : option Z) (t t0 : A) :
  new_admin D ADMIN_ID t = (Ok tt, t0) ->
  let n := match partitions with Some p => p | None => 1 end in
  let swallow (e : Exn) : Result unit :=
    if str_in "TOPIC_ALREADY_EXISTS" (exn_text e) then Ok tt else Raise e in
  match list_message_types D t0 with
  | (Raise e, t1) =>
      register D message_type partitions t = (swallow e, [CallNew ADMIN_ID; CallList], t1)
  | (Ok known, t1) =>
      if mem_str message_type known then
        register D message_type partitions t = (Ok tt, [CallNew ADMIN_ID; CallList], t1)
      else
        match register_message_type D [message_type] n t1 with
        | (Ok _, t2) =>
            register D message_type partitions t
            = (Ok tt, [CallNew ADMIN_ID; CallList; CallRegister [message_type] n], t2)
        | (Raise e, t2) =>
            register D message_type partitions t
            = (swallow e, [CallNew ADMIN_ID; CallList; CallRegister [message_type] n], t2)
        end
  end
  /\ (forall (e : Exn) (calls : list AdminCall) (t' : A),
        register D message_type partitions t = (Raise e, calls, t') ->
        str_in "TOPIC_ALREADY_EXISTS" (exn_text e) = false)
  /\ (forall (d : AdminDouble) (again : option Z),
        fst (fst (register admin_double message_type partitions d)) = Ok tt
        /\ fst (fst (register admin_double message_type again
                       (snd (register admin_double message_type partitions d))))
           = Ok tt).
Proof.
  intros Hnew n swallow.
  assert (Hfirst : forall d p, fst (fst (register admin_double message_type p d)) = Ok tt).
  { intros d p. unfold register, register_try. cbn -[already_exists str_in].
    destruct (mem_str message_type (listed d)) eqn:Hl;
      cbn -[already_exists str_in]; [reflexivity|].
    destruct (mem_str message_type (unlisted d)) eqn:Hu;
      cbn -[already_exists str_in]; [|reflexivity].
    rewrite str_in_already_exists. reflexivity. }
  split; [|split].
  - unfold register, register_try. rewrite Hnew. subst n swallow. cbn.
    destruct (list_message_types D t0) as [[known|e] t1]; cbn.
    + destruct (mem_str message_type known); cbn; [reflexivity|].
      destruct (register_message_type D [message_type]
                  match partitions with Some p => p | None => 1 end t1)
        as [[[]|e] t2]; cbn; [reflexivity|].
      destruct (str_in "TOPIC_ALREADY_EXISTS" (exn_text e)); reflexivity.
    + destruct (str_in "TOPIC_ALREADY_EXISTS" (exn_text e)); reflexivity.
  - intros e calls t'. unfold register, register_try. rewrite Hnew. cbn.
    destruct (list_message_types D t0) as [[known|e1] t1]; cbn.
    + destruct (mem_str message_type known); cbn; [discriminate|].
      destruct (register_message_type D [message_type]
                  match partitions with Some p => p | None => 1 end t1)
        as [[[]|e2] t2]; cbn; [discriminate|].
      destruct (str_in "TOPIC_ALREADY_EXISTS" (exn_text e2)) eqn:E; cbn;
        [discriminate|]. intros H; inversion H; subst; exact E.
    + destruct (str_in "TOPIC_ALREADY_EXISTS" (exn_text e1)) eqn:E; cbn;
        [discriminate|]. intros H; inversion H; subst; exact E.
  - intros d again. split; apply Hfirst.
Qed.

(** ** The properties on the test doubles *)

(** A handler that answers IGNORED: one acknowledgment, and the loop goes
    on to poll. *)
Lemma outcome_acknowledged_or_stopped_witness :
  let C := double 2 in
  let f := start_frame
             (double_world (mkDouble [Ok "m1"; Ok "m2"] [Ok (outcome_value IGNORED)] [] None)) in
  let f' := mkFrame false (Some "m1") (double_world (mkDouble [Ok "m2"] [] [] None)) in
  let t := [EvIsSet false; EvReceive 2 (Ok (Some "m1"));
            EvCallback "m1" (Ok (PyStr "success")); EvAck (Ok tt)] in
  main_loop C 2 f = then_loop C 1 t f'
  /\ count is_ack_call t = 1%nat
  /\ polls_next C f'.
Proof.
  intros C f f' t.
  apply (outcome_acknowledged_or_stopped C 1 f
           (mkFrame false (Some "m1")
              (double_world (mkDouble [Ok "m2"] [Ok (outcome_value IGNORED)] [] None)))
           "m1" [EvReceive 2 (Ok (Some "m1"))] IGNORED
           (double_world (mkDouble [Ok "m2"] [] [] None))
           (double_world (mkDouble [Ok "m2"] [] [] None))).
  - reflexivity.
  - apply (delivers_polled C f "m1"); reflexivity.
  - reflexivity.
  - reflexivity.
Defined.

(** A handler that answers FAILED, then nothing, then 3: three invocations
    on the same message, no poll and no acknowledgment in between. *)
Lemma unrecognised_outcome_retries_same_message_witness :
  let C := double 2 in
  let script := [Ok (PyStr "failed"); Ok PyNone; Ok (PyInt 3)] in
  let f := start_frame (double_world (mkDouble [Ok "m1"; Ok "m2"] script [] None)) in
  let t := [EvIsSet false; EvReceive 2 (Ok (Some "m1"));
            EvCallback "m1" (Ok (PyStr "failed"));
            EvIsSet false; EvCallback "m1" (Ok PyNone);
            EvIsSet false; EvCallback "m1" (Ok (PyInt 3))] in
  main_loop C 3 f
  = then_loop C 0 t (mkFrame true (Some "m1") (double_world (mkDouble [Ok "m2"] [] [] None)))
  /\ count is_ack_call t = 0%nat.
Proof.
  intros C script f t.
  pose proof (unrecognised_outcome_retries_same_message C 0 f
                (mkFrame false (Some "m1") (double_world (mkDouble [Ok "m2"] script [] None)))
                "m1" [EvReceive 2 (Ok (Some "m1"))] (PyStr "failed")
                (double_world (mkDouble [Ok "m2"] [Ok PyNone; Ok (PyInt 3)] [] None))
                eq_refl
                (delivers_polled C f "m1" _ eq_refl eq_refl)
                eq_refl eq_refl) as H.
  destruct H as (_ & _ & _ & _ & _ & _ & H).
  destruct (H 2%nat
              [EvIsSet false; EvCallback "m1" (Ok PyNone);
               EvIsSet false; EvCallback "m1" (Ok (PyInt 3))]
              (double_world (mkDouble [Ok "m2"] [] [] None)) eq_refl)
    as (Hloop & Hack & _).
  split; [exact Hloop|exact Hack].
Defined.

(** A handler that raises on its first invocation and answers PROCESSED on
    its second: two invocations, one acknowledgment. *)
Lemma handler_exception_is_retried_witness :
  let C := double 2 in
  let boom := mkExn "ValueError" "boom" in
  let f := start_frame
             (double_world
                (mkDouble [Ok "m1"] [Raise boom; Ok (outcome_value PROCESSED)] [] None)) in
  let t := [EvIsSet false; EvReceive 2 (Ok (Some "m1"));
            EvCallback "m1" (Raise boom); EvLog (LogCallerException boom);
            EvIsSet false; EvCallback "m1" (Ok (PyStr "success")); EvAck (Ok tt)] in
  main_loop C 2 f
  = then_loop C 0 t (mkFrame false (Some "m1") (double_world (mkDouble [] [] [] None)))
  /\ count is_callback t = 2%nat
  /\ count is_ack_call t = 1%nat
  /\ count is_ack t = 1%nat.
Proof.
  intros C boom f t.
  pose proof (handler_exception_is_retried C 0 f
                (mkFrame false (Some "m1")
                   (double_world
                      (mkDouble [] [Raise boom; Ok (outcome_value PROCESSED)] [] None)))
                "m1" [EvReceive 2 (Ok (Some "m1"))] boom
                (double_world (mkDouble [] [Ok (outcome_value PROCESSED)] [] None))
                eq_refl
                (delivers_polled C f "m1" _ eq_refl eq_refl)
                eq_refl) as H.
  destruct H as (_ & _ & _ & H).
  exact (H (double_world (mkDouble [] [] [] None))
           (double_world (mkDouble [] [] [] None)) eq_refl eq_refl eq_refl).
Defined.

(** A transport that fails the first poll: the failure is logged and the
    loop goes on to poll. *)
Lemma transport_exception_suppressed_witness :
  let C := double 2 in
  let down := mkExn "MessageBusError" "broker down" in
  let f := start_frame (double_world (mkDouble [Raise down; Ok "m1"] [] [] None)) in
  let f' := mkFrame false None (double_world (mkDouble [Ok "m1"] [] [] None)) in
  main_loop C 2 f
  = then_loop C 1 [EvIsSet false; EvReceive 2 (Raise down); EvLog (LogBusException down)] f'
  /\ polls_next C f'.
Proof.
  intros C down f f'.
  exact (proj1 (transport_exception_suppressed C 1 f eq_refl)
           down (double_world (mkDouble [Ok "m1"] [] [] None)) eq_refl eq_refl).
Defined.

(** A handler that answers STOP_ACK while the acknowledgment fails: the
    loop is not left. *)
Lemma stop_ack_failure_discards_stop_witness :
  let C := double 2 in
  let down := mkExn "MessageBusError" "broker down" in
  let f := start_frame
             (double_world
                (mkDouble [Ok "m1"] [Ok (outcome_value STOP_ACK)] [Raise down] None)) in
  let f' := mkFrame false (Some "m1") (double_world (mkDouble [] [] [] None)) in
  let t := [EvIsSet false; EvReceive 2 (Ok (Some "m1"));
            EvCallback "m1" (Ok (PyStr "success_stop")); EvAck (Raise down);
            EvLog (LogBusException down)] in
  iteration C f = (Ok Next, tl t, f')
  /\ main_loop C 2 f = then_loop C 1 t f'
  /\ count is_ack t = 0%nat
  /\ polls_next C f'.
Proof.
  intros C down f f' t.
  exact (stop_ack_failure_discards_stop C 1 f
           (mkFrame false (Some "m1")
              (double_world (mkDouble [] [Ok (outcome_value STOP_ACK)] [Raise down] None)))
           "m1" [EvReceive 2 (Ok (Some "m1"))] down
           (double_world (mkDouble [] [] [Raise down] None))
           (double_world (mkDouble [] [] [] None))
           eq_refl (delivers_polled C f "m1" _ eq_refl eq_refl) eq_refl eq_refl).
Defined.

(** Another thread calls [stop] while the worker is inside the poll that
    returns [m1]: the handler is still invoked on [m1]. *)
Lemma stop_observed_between_iterations_witness :
  let C := double 2 in
  let f := start_frame
             (double_world (mkDouble [Ok "m1"; Ok "m2"] [] [] (Some (0%nat, false, [])))) in
  exists t : list Event,
    trace_of (main_loop C 3 f)
    = EvIsSet false :: EvReceive 2 (Ok (Some "m1"))
      :: EvCallback "m1" (Ok (PyStr "success")) :: t.
Proof.
  intros C f.
  pose proof (stop_observed_between_iterations C 2 f false eq_refl) as H.
  destruct H as (_ & _ & _ & H & _).
  exact (H "m1" (Ok (PyStr "success"))
           (double_world (mkDouble [Ok "m2"] [] [] None))
           (stop false (double_world (mkDouble [Ok "m2"] [] [] None)))
           eq_refl eq_refl eq_refl eq_refl).
Defined.

(** The worker sees [stop(flush=True)] with three messages on the topic. *)
Lemma flush_drains_without_handler_witness :
  let C := double 2 in
  let f := start_frame
             (stop true (double_world (mkDouble [Ok "x"; Ok "y"; Ok "z"] [] [] None))) in
  let w' := stop true (double_world (mkDouble [] [] [] None)) in
  let flushed :=
    [EvLog (LogFlushPending "ha-events");
     EvReceive 1 (Ok (Some "x")); EvLog (LogFlushing "x"); EvAck (Ok tt);
     EvReceive 1 (Ok (Some "y")); EvLog (LogFlushing "y"); EvAck (Ok tt);
     EvReceive 1 (Ok (Some "z")); EvLog (LogFlushing "z"); EvAck (Ok tt);
     EvReceive 1 (Ok None)] in
  flush_on_exit_part C 4 f = (Ok Returned, flushed, mkFrame false None w')
  /\ run C 4 f = (Ok Returned, EvIsSet true :: flushed, mkFrame false None w')
  /\ count is_callback flushed = 0%nat
  /\ count is_ack flushed = 3%nat.
Proof.
  intros C f w' flushed.
  assert (Hd : drains C (world f) ["x"; "y"; "z"] w').
  { eapply drains_message; [reflexivity|reflexivity|].
    eapply drains_message; [reflexivity|reflexivity|].
    eapply drains_message; [reflexivity|reflexivity|].
    apply drains_empty. reflexivity. }
  destruct (flush_drains_without_handler C 4 f ["x"; "y"; "z"] w' eq_refl eq_refl Hd
              (le_n 4))
    as (_ & Hpart & Hrun & Hc & Ha & _).
  repeat split; assumption.
Defined.

(** [stop(flush=True)] during an idle poll, then three messages put on the
    topic: [run] acknowledges the three, never invokes the handler, and
    returns. *)
Example run_flushes_three_late_messages :
  let late := [Ok "x"; Ok "y"; Ok "z"] in
  let r := run (double 2) 5
             (start_frame (double_world (mkDouble [] [] [] (Some (0%nat, true, late))))) in
  fst (fst r) = Ok Returned
  /\ trace_of r
     = [EvIsSet false; EvReceive 2 (Ok None); EvIsSet true;
        EvLog (LogFlushPending "ha-events")]
       ++ drained ["x"; "y"; "z"] ++ [EvReceive 1 (Ok None)]
  /\ count is_callback (trace_of r) = 0%nat
  /\ count is_ack (trace_of r) = 3%nat.
Proof. repeat split. Qed.

(** A mapping, a list of two strings and a number, on the recorder. *)
Lemma publish_by_shape_witness :
  publish recorder (PyDict [(PyStr "a", PyInt 1)]) []
  = (Ok tt, [[PyStr ("{" ++ dquote ++ "a" ++ dquote ++ ": 1}")]],
     [[PyStr ("{" ++ dquote ++ "a" ++ dquote ++ ": 1}")]])
  /\ publish recorder (PyList [PyStr "x"; PyStr "y"]) []
     = (Ok tt, [[PyStr "x"; PyStr "y"]], [[PyStr "x"; PyStr "y"]])
  /\ (is_invalid_payload (fst (fst (publish recorder (PyInt 42) []))) = true
      /\ snd (fst (publish recorder (PyInt 42) [])) = []
      /\ snd (publish recorder (PyInt 42) []) = []).
Proof.
  split; [|split].
  - exact (proj1 (publish_by_shape recorder (PyDict [(PyStr "a", PyInt 1)]) []) eq_refl).
  - exact (proj1 (proj2 (proj2 (publish_by_shape recorder (PyList [PyStr "x"; PyStr "y"]) [])))
             [PyStr "x"; PyStr "y"] eq_refl).
  - exact (proj2 (proj2 (proj2 (publish_by_shape recorder (PyInt 42) [])))
             eq_refl eq_refl eq_refl).
Defined.

(** Registering a type another registrant has just created, twice. *)
Lemma register_tolerates_existing_witness :
  let racing := mkAdminDouble [] ["ha-events"] in
  register admin_double "ha-events" None racing
  = (Ok tt, [CallNew ADMIN_ID; CallList; CallRegister ["ha-events"] 1], racing)
  /\ fst (fst (register admin_double "ha-events" None
                 (snd (register admin_double "ha-events" None racing))))
     = Ok tt.
Proof.
  intros racing.
  pose proof (register_tolerates_existing admin_double "ha-events" None racing racing
                eq_refl) as H.
  destruct H as (H1 & _ & H3).
  split; [exact H1|exact (proj2 (H3 racing None))].
Defined.

(** ** Further properties of the worker *)

Lemma phase_run_split (wait : Z) (a b : list Event) (p q : Phase) :
  phase_run wait p (a ++ b) = Some q ->
  exists p1 : Phase, phase_run wait p a = Some p1 /\ phase_run wait p1 b = Some q.
Proof.
  rewrite phase_run_app.
  destruct (phase_run wait p a) as [p1|]; [eauto|discriminate].
Qed.

Lemma after_status_acking (m : Message) (status : PyValue) (s : bool) :
  after_status m status = Acking s ->
  py_eq_str status CONSUMER_STATUS.SUCCESS
  || py_eq_str status CONSUMER_STATUS.SUCCESS_STOP = true.
Proof.
  unfold after_status.
  destruct (py_eq_str status CONSUMER_STATUS.SUCCESS); [reflexivity|].
  destruct (py_eq_str status CONSUMER_STATUS.FAILED_STOP); [discriminate|].
  destruct (py_eq_str status CONSUMER_STATUS.SUCCESS_STOP); [reflexivity|discriminate].
Qed.

Lemma phase_step_ack (wait : Z) (p p' : Phase) (r : Result unit) :
  phase_step wait p (EvAck r) = Some p' ->
  (exists s : bool, p = Acking s) /\ needs_poll p' = true.
Proof.
  destruct p; cbn; try discriminate.
  destruct r as [u|e]; intros H; inversion H; subst; split; eauto.
  destruct stopping; reflexivity.
Qed.

Lemma phase_step_to_acking (wait : Z) (p : Phase) (ev : Event) (s : bool) :
  phase_step wait p ev = Some (Acking s) ->
  exists (m : Message) (status : PyValue),
    ev = EvCallback m (Ok status)
    /\ py_eq_str status CONSUMER_STATUS.SUCCESS
       || py_eq_str status CONSUMER_STATUS.SUCCESS_STOP = true.
Proof.
  destruct p, ev; cbn; try discriminate.
  - destruct b; [discriminate|]. destruct held0; discriminate.
  - destruct (Z.eqb timeout0 wait); [|discriminate].
    destruct r as [[m|]|e]; discriminate.
  - destruct (String.eqb m m0) eqn:E; [|discriminate].
    apply String.eqb_eq in E. subst m0.
    destruct r as [status|e]; [|discriminate].
    intros H. inversion H as [Hs]. exists m, status. split; [reflexivity|].
    eapply after_status_acking; eauto.
  - destruct l; discriminate.
  - destruct r as [u|e]; [destruct stopping|]; discriminate.
  - destruct l; discriminate.
Qed.

Lemma phase_run_ack_follows_success (wait : Z) (t : list Event) :
  forall (p q : Phase) (a b : list Event) (r : Result unit),
    phase_run wait p t = Some q ->
    t = a ++ EvAck r :: b ->
    (exists (a' : list Event) (m : Message) (status : PyValue),
        a = a' ++ [EvCallback m (Ok status)]
        /\ py_eq_str status CONSUMER_STATUS.SUCCESS
           || py_eq_str status CONSUMER_STATUS.SUCCESS_STOP = true)
    \/ (a = [] /\ exists s : bool, p = Acking s).
Proof.
  induction t as [|ev t IH]; intros p q a b r Hrun Ht.
  - destruct a; discriminate.
  - cbn in Hrun. destruct (phase_step wait p ev) as [p'|] eqn:Hstep; [|discriminate].
    destruct a as [|x a0]; cbn in Ht; inversion Ht; subst.
    + right. split; [reflexivity|]. eapply phase_step_ack; eauto.
    + left. destruct (IH p' q a0 b r Hrun eq_refl)
        as [(a' & m & status & -> & Hok) | (-> & s & ->)].
      * exists (x :: a'), m, status. split; [reflexivity|exact Hok].
      * destruct (phase_step_to_acking wait p x s Hstep) as (m & status & -> & Hok).
        exists [], m, status. split; [reflexivity|exact Hok].
Qed.

Lemma phase_run_poll_before_ack (wait : Z) (t : list Event) :
  forall p q : Phase,
    phase_run wait p t = Some q ->
    needs_poll p = true ->
    needs_poll q = false ->
    exists m : Message, In (EvReceive wait (Ok (Some m))) t.
Proof.
  induction t as [|ev t IH]; intros p q Hrun Hp Hq.
  - cbn in Hrun. inversion Hrun; subst. congruence.
  - cbn in Hrun. destruct (phase_step wait p ev) as [p'|] eqn:Hstep; [|discriminate].
    destruct (needs_poll p') eqn:Hp'.
    + destruct (IH p' q Hrun Hp' Hq) as [m Hin]. exists m. right. exact Hin.
    + destruct p as [[m0|]| | | | | |]; try discriminate; destruct ev; cbn in Hstep;
        try discriminate.
      * destruct b; inversion Hstep; subst; discriminate.
      * destruct (Z.eqb timeout0 wait) eqn:E; [|discriminate].
        apply Z.eqb_eq in E. subst timeout0.
        destruct r as [[m|]|e]; inversion Hstep; subst; try discriminate.
        exists m. left. reflexivity.
      * destruct l; inversion Hstep; subst; discriminate.
Qed.

Section WorkerExtras.
Context {X : Type} (C : Collaborators X).

Lemma main_loop_accepted (n : nat) (f : Frame X) :
  coherent f = true ->
  exists q : Phase,
    phase_run (CORTX_HA_WAIT_TIMEOUT C) (AtCheck (held f)) (trace_of (main_loop C n f))
    = Some q.
Proof.
  intros Hc. pose proof (main_loop_phases C n f Hc) as H.
  destruct (phase_run (CORTX_HA_WAIT_TIMEOUT C) (AtCheck (held f))
              (trace_of (main_loop C n f))) as [q|]; [eauto|discriminate].
Qed.

Lemma main_loop_never_raises (n : nat) :
  forall f : Frame X,
  exists (b : bool) (t : list Event) (f' : Frame X), main_loop C n f = (Ok b, t, f').
Proof.
  induction n as [|n IH]; intros f; [cbn; unfold ret; eauto|].
  destruct (_stop (self (world f))) eqn:Hs.
  - rewrite (main_loop_stopped C n f Hs). eauto.
  - destruct (iteration_total C f) as (c & t & f' & Hi).
    destruct (IH f') as (b & t' & f'' & Hl).
    destruct c.
    + rewrite (main_loop_continues C n f f' Next t Hs Hi) by discriminate.
      unfold then_loop. rewrite Hl. eauto.
    + rewrite (main_loop_continues C n f f' Continue t Hs Hi) by discriminate.
      unfold then_loop. rewrite Hl. eauto.
    + rewrite (main_loop_breaks C n f f' t Hs Hi). eauto.
Qed.

(** X1. An exception (of class [Exception]) that the handler, [receive]
    or [ack] raises inside the [while] loop never leaves it: with the log
    call returning, the loop always ends normally or goes on.  [run]
    raises such an exception only from the flush after the loop: with the
    flush flag set, when a poll or an acknowledgment of the flush raises,
    and that call is then the last thing [run] did. *)
Theorem run_raises_only_while_flushing (n : nat) (f : Frame X) :
  (exists (b : bool) (t : list Event) (f' : Frame X), main_loop C n f = (Ok b, t, f'))
  /\ (forall (e : Exn) (t : list Event) (f' : Frame X),
         run C n f = (Raise e, t, f') ->
         exists (t0 : list Event) (f1 : Frame X) (ms : list Message) (rest : list Event),
           main_loop C n (mkFrame false (message f) (world f)) = (Ok true, t0, f1)
           /\ flush_on_exit (self (world f1)) = true
           /\ t = t0 ++ EvLog (LogFlushPending (message_type (self (world f1))))
                      :: drained ms ++ rest
           /\ (rest = [EvReceive 1 (Raise e)]
               \/ exists m : Message,
                   rest = [EvReceive 1 (Ok (Some m)); EvLog (LogFlushing m);
                           EvAck (Raise e)])).
Proof.
  split; [apply main_loop_never_raises|].
  intros e t f' Hrun.
  destruct (main_loop_never_raises n (mkFrame false (message f) (world f)))
    as (b & t0 & f1 & Hl).
  unfold run, set_retry in Hrun. unfold bind at 1 2 in Hrun. rewrite Hl in Hrun.
  destruct b; [|discriminate].
  unfold flush_on_exit_part, get_self, log, bind, ret in Hrun. cbn in Hrun.
  destruct (flush_on_exit (self (world f1))) eqn:Hf; [|discriminate].
  destruct (flush_loop_shape C n f1) as (ms & rest & r & f2 & Hfl & Hr).
  rewrite Hfl in Hrun.
  destruct r as [[|]|e']; cbn in Hrun; try discriminate.
  inversion Hrun; subst. exists t0, f1, ms, rest. auto.
Qed.

(** X2. In the loop, [ack] is called only straight after the handler has
    returned SUCCESS or SUCCESS_STOP: never for a message the handler
    raised on, asked to retry or gave up on, and never before the handler
    has been invoked. *)
Theorem ack_only_after_success (n : nat) (f : Frame X) (a b : list Event)
    (r : Result unit) :
  coherent f = true ->
  trace_of (main_loop C n f) = a ++ EvAck r :: b ->
  exists (a' : list Event) (m : Message) (status : PyValue),
    a = a' ++ [EvCallback m (Ok status)]
    /\ py_eq_str status CONSUMER_STATUS.SUCCESS
       || py_eq_str status CONSUMER_STATUS.SUCCESS_STOP = true.
Proof.
  intros Hc Ht. destruct (main_loop_accepted n f Hc) as [q Hq].
  destruct (phase_run_ack_follows_success _ _ _ _ a b r Hq Ht)
    as [H | (_ & s & Hs)]; [exact H|discriminate].
Qed.

(** X3. Two calls of [ack] in the loop are always separated by a poll
    that returned a message: no delivery is acknowledged twice. *)
Theorem no_second_ack_without_poll (n : nat) (f : Frame X) (a mid b : list Event)
    (r1 r2 : Result unit) :
  coherent f = true ->
  trace_of (main_loop C n f) = a ++ EvAck r1 :: mid ++ EvAck r2 :: b ->
  exists m : Message, In (EvReceive (CORTX_HA_WAIT_TIMEOUT C) (Ok (Some m))) mid.
Proof.
  intros Hc Ht. destruct (main_loop_accepted n f Hc) as [q Hq].
  rewrite Ht in Hq.
  destruct (phase_run_split _ _ _ _ _ Hq) as (p1 & _ & H1).
  cbn [phase_run] in H1.
  destruct (phase_step (CORTX_HA_WAIT_TIMEOUT C) p1 (EvAck r1)) as [p2|] eqn:Hs1;
    [|discriminate].
  destruct (phase_step_ack _ _ _ _ Hs1) as [_ Hneeds].
  destruct (phase_run_split _ _ _ _ _ H1) as (p3 & Hmid & H3).
  cbn [phase_run] in H3.
  destruct (phase_step (CORTX_HA_WAIT_TIMEOUT C) p3 (EvAck r2)) as [p4|] eqn:Hs2;
    [|discriminate].
  destruct (phase_step_ack _ _ _ _ Hs2) as [[s ->] _].
  exact (phase_run_poll_before_ack _ mid p2 (Acking s) Hmid Hneeds eq_refl).
Qed.

(** X4. A message the handler never gets done with blocks the consumer:
    as long as the stop flag stays unset and the handler raises or returns
    an unrecognised value, every iteration invokes the handler on that same
    message, and the loop neither polls, nor acknowledges, nor ends. *)
Theorem poison_message_blocks_the_loop (I : World X -> Prop) (m : Message) :
  (forall w : World X,
      I w ->
      _stop (self w) = false
      /\ poisoned (fst (callback C m w)) = true
      /\ I (snd (callback C m w))) ->
  forall (n : nat) (w : World X),
    I w ->
    exists (t : list Event) (w' : World X),
      main_loop C n (mkFrame true (Some m) w) = (Ok false, t, mkFrame true (Some m) w')
      /\ I w'
      /\ count is_callback t = n
      /\ count is_receive t = 0%nat
      /\ count is_ack_call t = 0%nat.
Proof.
  intros Hinv. induction n as [|n IH]; intros w Hw.
  - exists [], w. cbn. auto.
  - destruct (Hinv w Hw) as (Hs & Hp & Hw').
    destruct (callback C m w) as [r w1] eqn:Hcb. cbn in Hp, Hw'.
    destruct (IH w1 Hw') as (t & w' & Hl & HI & Hc & Hr & Ha).
    destruct r as [status|e]; cbn in Hp.
    + pose proof (iteration_unrecognised C _ _ m [] status w1
                    (retried_frame_delivers C m w) Hcb Hp) as Hi.
      rewrite (main_loop_continues C n (mkFrame true (Some m) w) _ Continue _ Hs Hi)
        by discriminate.
      unfold then_loop. rewrite Hl. eexists. exists w'. split; [reflexivity|].
      cbn. cbn in Hc, Hr, Ha. auto.
    + pose proof (iteration_callback_raises C _ _ m [] e w1
                    (retried_frame_delivers C m w) Hcb) as Hi.
      rewrite (main_loop_continues C n (mkFrame true (Some m) w) _ Continue _ Hs Hi)
        by discriminate.
      unfold then_loop. rewrite Hl. eexists. exists w'. split; [reflexivity|].
      cbn. cbn in Hc, Hr, Ha. auto.
Qed.

(** X5. With the stop flag set and the flush flag unset, [run] returns at
    once: it tests the flag and calls neither the transport nor the
    handler.  The flush flag is the one of the last call of [stop], so a
    later [stop()] undoes the flush an earlier [stop(flush=True)] asked
    for. *)
Theorem stop_without_flush_returns_at_once (n : nat) (f : Frame X) (w : World X)
    (flush1 flush2 : bool) :
  _stop (self (world f)) = true ->
  flush_on_exit (self (world f)) = false ->
  run C (S n) f = (Ok Returned, [EvIsSet true], mkFrame false (message f) (world f))
  /\ stop flush2 (stop flush1 w) = stop flush2 w
  /\ run C (S n) (start_frame (stop false (stop flush1 w)))
     = (Ok Returned, [EvIsSet true], start_frame (stop false w)).
Proof.
  intros Hs Hf.
  assert (Hgen : forall g : Frame X,
             _stop (self (world g)) = true ->
             flush_on_exit (self (world g)) = false ->
             run C (S n) g
             = (Ok Returned, [EvIsSet true], mkFrame false (message g) (world g))).
  { intros g Hgs Hgf.
    apply (run_after_loop C (S n) g (mkFrame false (message g) (world g))
             (mkFrame false (message g) (world g)) [EvIsSet true] [] (Ok Returned)).
    - apply main_loop_stopped. exact Hgs.
    - unfold flush_on_exit_part, get_self, bind, ret. cbn. rewrite Hgf. reflexivity. }
  split; [apply Hgen; assumption|].
  split; [reflexivity|].
  apply (Hgen (start_frame (stop false (stop flush1 w)))); reflexivity.
Qed.

End WorkerExtras.

Lemma phase_run_calls_on_last_polled (wait : Z) (t : list Event) :
  forall (p q : Phase) (cur : option Message),
    phase_run wait p t = Some q ->
    phase_holds p cur ->
    calls_on_last_polled cur t = true.
Proof.
  induction t as [|ev t IH]; intros p q cur Hrun Hp; [reflexivity|].
  cbn in Hrun. destruct (phase_step wait p ev) as [p'|] eqn:Hstep; [|discriminate].
  destruct p as [[m0|]| |m0|m0|s| |]; destruct ev; cbn in Hstep; try discriminate;
    cbn [calls_on_last_polled phase_holds] in *.
  - destruct b; inversion Hstep; subst; eapply IH; eauto; cbn; auto.
  - destruct b; inversion Hstep; subst; eapply IH; eauto; cbn; auto.
  - destruct (Z.eqb timeout0 wait); [|discriminate].
    destruct r as [[m|]|e]; inversion Hstep; subst; eapply IH; eauto; cbn; auto.
  - destruct (String.eqb m0 m) eqn:E; [|discriminate].
    apply String.eqb_eq in E. subst m cur. rewrite String.eqb_refl. cbn.
    destruct r as [status|e]; inversion Hstep; subst; eapply IH; eauto; cbn; auto.
    unfold after_status.
    destruct (py_eq_str status CONSUMER_STATUS.SUCCESS); [exact I|].
    destruct (py_eq_str status CONSUMER_STATUS.FAILED_STOP); [exact I|].
    destruct (py_eq_str status CONSUMER_STATUS.SUCCESS_STOP); [exact I|reflexivity].
  - destruct l; inversion Hstep; subst; eapply IH; eauto; cbn; auto.
  - destruct r as [u|e]; inversion Hstep; subst; eapply IH; eauto; cbn; auto.
    destruct s; exact I.
  - destruct l; inversion Hstep; subst; eapply IH; eauto; cbn; auto.
Qed.

Section WorkerOrder.
Context {X : Type} (C : Collaborators X).

(** X7. The handler is only ever invoked on the message of the last poll
    that returned one (or, in a loop entered with a retry outstanding, on
    the message held for it): the loop never polls ahead of a message and
    never hands over an older one. *)
Theorem handler_gets_last_polled_message (n : nat) (f : Frame X) :
  coherent f = true ->
  calls_on_last_polled (held f) (trace_of (main_loop C n f)) = true.
Proof.
  intros Hc. destruct (main_loop_accepted C n f Hc) as [q Hq].
  apply (phase_run_calls_on_last_polled _ _ _ _ _ Hq).
  cbn. destruct (held f); [reflexivity|exact I].
Qed.

(** X8. A poll that returns nothing is not an error: as long as the stop
    flag stays unset and the polls return nothing, the loop only tests the
    flag and polls; it logs nothing, never invokes the handler and never
    acknowledges. *)
Theorem idle_topic_only_polls (I : World X -> Prop) :
  (forall w : World X,
      I w ->
      _stop (self w) = false
      /\ fst (consumer_receive C (CORTX_HA_WAIT_TIMEOUT C) w) = Ok None
      /\ I (snd (consumer_receive C (CORTX_HA_WAIT_TIMEOUT C) w))) ->
  forall (n : nat) (f : Frame X),
    retry f = false ->
    I (world f) ->
    exists (t : list Event) (f' : Frame X),
      main_loop C n f = (Ok false, t, f')
      /\ retry f' = false
      /\ I (world f')
      /\ count is_receive t = n
      /\ count is_flag_check t = n
      /\ List.length t = (2 * n)%nat.
Proof.
  intros Hinv. induction n as [|n IH]; intros f Hr Hw.
  - exists [], f. cbn. repeat split; auto.
  - destruct (Hinv (world f) Hw) as (Hs & Hp & Hw').
    destruct (consumer_receive C (CORTX_HA_WAIT_TIMEOUT C) (world f)) as [r w1] eqn:Hrecv.
    cbn in Hp, Hw'. subst r.
    pose proof (iteration_idle C f w1 Hr Hrecv) as Hi.
    destruct (IH (mkFrame false None w1) eq_refl Hw') as (t & f' & Hl & Hr' & HI & Hc & Hk & Hlen).
    rewrite (main_loop_continues C n f _ Continue _ Hs Hi) by discriminate.
    unfold then_loop. rewrite Hl. eexists. exists f'. split; [reflexivity|].
    unfold count in *. cbn. rewrite Hc, Hk, Hlen. repeat split; auto. lia.
Qed.

End WorkerOrder.

(** ** Properties of [deregister] *)

Lemma mem_str_filter_out (x : string) (l : list string) :
  mem_str x (filter (fun y => negb (String.eqb x y)) l) = false.
Proof.
  induction l as [|y l IH]; [reflexivity|].
  cbn. destruct (String.eqb x y) eqn:E; cbn; [exact IH|].
  rewrite E. exact IH.
Qed.

(** X9. On every transport that keeps its listing, [deregister] undoes
    [register]: after [register] the type is listed; [deregister] then
    makes one call of [deregister_message_type], returns normally and
    leaves the type off the listing; a second [deregister] makes no such
    call and changes nothing; and [register] then registers the type anew,
    with one call of [register_message_type]. *)
Theorem deregister_undoes_register {A : Type} (D : AdminOps A)
    (listing : A -> list string) (message_type : string) (partitions : option Z) (t : A) :
  keeps_listing D listing ->
  let n := match partitions with Some p => p | None => 1 end in
  let t1 := snd (register (ops_admin D) message_type partitions t) in
  let t2 := snd (deregister D message_type t1) in
  let t3 := snd (register (ops_admin D) message_type partitions t2) in
  (fst (fst (register (ops_admin D) message_type partitions t)) = Ok tt
   /\ mem_str message_type (listing t1) = true)
  /\ (deregister D message_type t1
      = (Ok tt, [DCallNew ADMIN_ID; DCallList; DCallDeregister [message_type]], t2)
      /\ mem_str message_type (listing t2) = false)
  /\ deregister D message_type t2 = (Ok tt, [DCallNew ADMIN_ID; DCallList], t2)
  /\ (register (ops_admin D) message_type partitions t2
      = (Ok tt, [CallNew ADMIN_ID; CallList; CallRegister [message_type] n], t3)
      /\ mem_str message_type (listing t3) = true).
Proof.
  intros (Hnew & Hlist & Hreg & Hdereg) n t1 t2 t3.
  assert (Hregister : forall x : A,
             mem_str message_type (listing x) = false ->
             exists x' : A,
               register (ops_admin D) message_type partitions x
               = (Ok tt, [CallNew ADMIN_ID; CallList; CallRegister [message_type] n], x')
               /\ mem_str message_type (listing x') = true).
  { intros x Hx. destruct (Hreg message_type n x Hx) as (x' & Hr & Hl).
    exists x'. split; [|exact Hl].
    unfold register, register_try. rewrite Hnew, Hlist, Hx. cbn.
    fold n. rewrite Hr. reflexivity. }
  assert (Hlisted : forall x : A,
             mem_str message_type (listing x) = true ->
             register (ops_admin D) message_type partitions x
             = (Ok tt, [CallNew ADMIN_ID; CallList], x)).
  { intros x Hx. unfold register, register_try. rewrite Hnew, Hlist, Hx. reflexivity. }
  assert (H1 : fst (fst (register (ops_admin D) message_type partitions t)) = Ok tt
               /\ mem_str message_type (listing t1) = true).
  { subst t1. destruct (mem_str message_type (listing t)) eqn:Ht.
    - rewrite (Hlisted t Ht). split; [reflexivity|exact Ht].
    - destruct (Hregister t Ht) as (x' & -> & Hl). split; [reflexivity|exact Hl]. }
  destruct H1 as [Hok Hl1].
  assert (H2 : deregister D message_type t1
               = (Ok tt, [DCallNew ADMIN_ID; DCallList; DCallDeregister [message_type]], t2)
               /\ mem_str message_type (listing t2) = false).
  { subst t2. destruct (Hdereg message_type t1 Hl1) as (x' & Hd & Hl).
    unfold deregister. rewrite Hnew, Hlist, Hl1, Hd. cbn. split; [reflexivity|exact Hl]. }
  destruct H2 as [Hd2 Hl2].
  split; [split; assumption|]. split; [split; assumption|]. split.
  - unfold deregister. rewrite Hnew, Hlist, Hl2. reflexivity.
  - subst t3. destruct (Hregister t2 Hl2) as (x' & -> & Hl). split; [reflexivity|exact Hl].
Qed.

Lemma plain_admin_keeps_listing : keeps_listing plain_admin (fun t => t).
Proof.
  repeat split.
  - intros mt p t Ht. exists (t ++ [mt]). cbn. rewrite Ht. split; [reflexivity|].
    apply mem_str_app.
  - intros mt t Ht. exists (filter (fun x => negb (String.eqb mt x)) t).
    cbn. rewrite Ht. split; [reflexivity|]. apply mem_str_filter_out.
Qed.

(** ** Properties of the support bundle *)

Lemma prefix_prefixes (y : string) :
  forall x : string, String.prefix x y = true <-> In x (prefixes y).
Proof.
  induction y as [|c y IH]; intros x.
  - destruct x; cbn; split; auto.
    + discriminate.
    + intros [H|[]]. discriminate H.
  - destruct x as [|a x]; cbn [prefixes String.prefix].
    + split; [left; reflexivity|reflexivity].
    + destruct (ascii_dec a c) as [->|Hne].
      * rewrite IH. split.
        -- intros H. right. apply in_map. exact H.
        -- intros [H|H]; [discriminate|].
           apply in_map_iff in H as (z & Hz & Hin). inversion Hz; subst. exact Hin.
      * split; [discriminate|].
        intros [H|H]; [discriminate|].
        apply in_map_iff in H as (z & Hz & _). inversion Hz; congruence.
Qed.

Lemma str_in_fragments (y : string) :
  forall x : string, str_in x y = true <-> In x (fragments y).
Proof.
  induction y as [|c y IH]; intros x; cbn [str_in fragments].
  - rewrite app_nil_r, <- prefix_prefixes.
    destruct (String.prefix x EmptyString); split; auto.
  - rewrite in_app_iff, <- prefix_prefixes, <- IH.
    destruct (String.prefix x (String c y)); split; auto.
    intros [H|H]; [discriminate|exact H].
Qed.

Lemma mem_In (x : string) (l : list string) :
  existsb (String.eqb x) l = true <-> In x l.
Proof.
  rewrite existsb_exists. split.
  - intros (y & Hin & E). apply String.eqb_eq in E. subst. exact Hin.
  - intros Hin. exists x. split; [exact Hin|apply String.eqb_refl].
Qed.

Lemma same_elements (l1 l2 : list string) :
  forallb (fun a => existsb (String.eqb a) l2) l1
  && forallb (fun a => existsb (String.eqb a) l1) l2 = true ->
  forall x : string, In x l1 <-> In x l2.
Proof.
  intros H x. apply andb_true_iff in H as [H1 H2].
  rewrite forallb_forall in H1, H2.
  split; intros Hin; apply mem_In; auto.
Qed.

(** X10. [str2bool] tests for a substring, not for equality.  It returns
    [True] for exactly the strings whose lower case is a fragment of
    [true], the empty string among them, and [False] for exactly the other
    strings whose lower case is a fragment of [false] (so [e] is [True]
    and [s] is [False]); it raises for every other string. *)
Theorem str2bool_accepts_fragments (s : string) :
  (str2bool (ArgStr s) = Ok true
   <-> In (lower s)
         [EmptyString; "t"; "r"; "u"; "e"; "tr"; "ru"; "ue"; "tru"; "rue"; "true"])
  /\ (str2bool (ArgStr s) = Ok false
      <-> In (lower s)
            ["f"; "a"; "l"; "s"; "fa"; "al"; "ls"; "se"; "fal"; "als"; "lse";
             "fals"; "alse"; "false"])
  /\ (str2bool (ArgStr s) = Raise (mkExn "ArgumentTypeError" "Boolean value expected.")
      <-> ~ In (lower s) (fragments "true" ++ fragments "false")).
Proof.
  pose proof (str_in_fragments "true" (lower s)) as Ht.
  pose proof (str_in_fragments "false" (lower s)) as Hf.
  pose proof (same_elements (fragments "true")
                [EmptyString; "t"; "r"; "u"; "e"; "tr"; "ru"; "ue"; "tru"; "rue"; "true"]
                eq_refl (lower s)) as HT.
  pose proof (same_elements
                (filter (fun a => negb (existsb (String.eqb a) (fragments "true")))
                   (fragments "false"))
                ["f"; "a"; "l"; "s"; "fa"; "al"; "ls"; "se"; "fal"; "als"; "lse";
                 "fals"; "alse"; "false"]
                eq_refl (lower s)) as HF.
  rewrite filter_In, negb_true_iff, <- not_true_iff_false, mem_In in HF.
  rewrite in_app_iff.
  unfold str2bool.
  set (PT := In (lower s)
               [EmptyString; "t"; "r"; "u"; "e"; "tr"; "ru"; "ue"; "tru"; "rue"; "true"])
    in *.
  set (PF := In (lower s)
               ["f"; "a"; "l"; "s"; "fa"; "al"; "ls"; "se"; "fal"; "als"; "lse";
                "fals"; "alse"; "false"]) in *.
  set (QT := In (lower s) (fragments "true")) in *.
  set (QF := In (lower s) (fragments "false")) in *.
  clearbody PT PF QT QF.
  destruct (str_in (lower s) "true"); destruct (str_in (lower s) "false");
    (split; [|split]); split; intros H; try discriminate H; try reflexivity;
    pose proof (eq_refl true) as Htrue;
    assert (Hfalse : false = true -> False) by discriminate;
    tauto.
Qed.



Lemma append_assoc (a b c : string) : ((a ++ b) ++ c = a ++ (b ++ c))%string.
Proof. induction a as [|x a IH]; cbn; [reflexivity|]. rewrite IH. reflexivity. Qed.



Lemma prefix_sep_append (b rest : string) :
  b <> EmptyString -> String.prefix "/" (b ++ rest) = String.prefix "/" b.
Proof.
  intros Hb. destruct b as [|c b]; [congruence|].
  cbn [String.append String.prefix]. destruct (ascii_dec "/" c); [|reflexivity].
  destruct (b ++ rest)%string; destruct b; reflexivity.
Qed.





(** X12. A bundle id that starts with a slash takes the archive out of
    the target directory: it is written to the bundle id itself with
    [.tar.gz] appended, whatever the target path, while the directory
    [__generate_tar] looks for and creates is still the one under the
    target path. *)
Theorem absolute_bundle_id_leaves_target_directory {F : Type} (B : BundleDeps F)
    (b : string) (target_path : option string) (t : F) :
  String.prefix "/" b = true ->
  let dir := tar_target_path B target_path in
  let file := (b ++ ".tar.gz")%string in
  let written := FsTarWrite file (_sb_tmp_src B) (basename (_sb_tmp_src B)) in
  tar_file_name B (Some b) target_path = file
  /\ (trace_calls (generate_tar B (Some b) target_path t) = [FsExists dir; written]
      \/ trace_calls (generate_tar B (Some b) target_path t)
         = [FsExists dir; FsMakedirs dir; written]
      \/ trace_calls (generate_tar B (Some b) target_path t)
         = [FsExists dir; FsMakedirs dir]).
Proof.
  intros Habs dir file written.
  assert (Hb : b <> EmptyString) by (intros ->; discriminate Habs).
  assert (Hname : tar_file_name B (Some b) target_path = file).
  { unfold tar_file_name, path_join.
    destruct (String.eqb b EmptyString) eqn:E;
      [apply String.eqb_eq in E; congruence|].
    rewrite prefix_sep_append by exact Hb. rewrite Habs. reflexivity. }
  split; [exact Hname|].
  unfold generate_tar, trace_calls. rewrite Hname. fold dir.
  destruct (path_exists B dir t).
  - left. destruct (tar_write B file (_sb_tmp_src B) (basename (_sb_tmp_src B)) t).
    reflexivity.
  - destruct (makedirs B dir t) as [[u|e] t1].
    + right. left.
      destruct (tar_write B file (_sb_tmp_src B) (basename (_sb_tmp_src B)) t1).
      reflexivity.
    + right. right. reflexivity.
Qed.

(** ** Properties of [power_off] *)

Lemma result_bind_ok {A B : Type} (r : Result A) (k : A -> Result B) (b : B) :
  result_bind r k = Ok b -> exists a : A, r = Ok a /\ k a = Ok b.
Proof. destruct r as [a|e]; cbn; [eauto|discriminate]. Qed.

Lemma ipmitool_command_shape {W : Type} (D : IpmiDeps W) (v : PyValue) (cmd : string) :
  ipmitool_command D v = Ok cmd ->
  String.prefix "ipmitool -I lanplus -H " cmd = true
  /\ exists body : string, cmd = (body ++ " chassis status")%string.
Proof.
  intros H. unfold ipmitool_command in H.
  apply result_bind_ok in H as (ip & _ & H).
  apply result_bind_ok in H as (ip_text & _ & H).
  apply result_bind_ok in H as (user & _ & H).
  apply result_bind_ok in H as (user_text & _ & H).
  apply result_bind_ok in H as (password & _ & H).
  apply result_bind_ok in H as (password_text & _ & H).
  assert (Hcmd : cmd = ("ipmitool -I lanplus -H "
                        ++ (ip_text ++ " -U " ++ user_text ++ " -P " ++ password_text
                            ++ " chassis status"))%string) by congruence.
  split.
  - rewrite Hcmd. apply prefix_append.
  - exists ("ipmitool -I lanplus -H " ++ ip_text ++ " -U " ++ user_text
            ++ " -P " ++ password_text)%string.
    rewrite Hcmd. rewrite !append_assoc. reflexivity.
Qed.

(** X13. [power_off] never powers anything off and never tells why it
    failed.  The only command it can run is an [ipmitool ... chassis
    status], at most once; when the store has nothing for the node it runs
    nothing and returns normally; and whatever goes wrong (the store, the
    BMC information, a missing credential, the command itself), it raises
    one and the same exception, whose text ends with the characters [{e}]
    and not with the cause. *)
Theorem power_off_masks_every_failure {W : Type} (D : IpmiDeps W) (nodeid : string)
    (w : W) :
  let r := fst (fst (power_off D nodeid w)) in
  let cmds := snd (fst (power_off D nodeid w)) in
  (r = Ok tt \/ r = Raise ipmitool_failed)
  /\ (List.length cmds <= 1)%nat
  /\ (forall cmd : string,
         In cmd cmds ->
         String.prefix "ipmitool -I lanplus -H " cmd = true
         /\ exists body : string, cmd = (body ++ " chassis status")%string)
  /\ (fst (confstore_get D (NODE_BMC_INFO_KEY D ++ "/node/" ++ nodeid)%string w) = Ok PyNone ->
      r = Ok tt /\ cmds = []).
Proof.
  intros r cmds. subst r cmds. unfold power_off, power_off_try.
  destruct (confstore_get D (NODE_BMC_INFO_KEY D ++ "/node/" ++ nodeid)%string w)
    as [[bmc_info|e] w1]; cbn [fst].
  2: { cbn. split; [auto|]. split; [lia|]. split; [intros c []|discriminate]. }
  assert (Hgen : forall K : Result string,
             (forall cmd : string,
                 K = Ok cmd ->
                 String.prefix "ipmitool -I lanplus -H " cmd = true
                 /\ exists body : string, cmd = (body ++ " chassis status")%string) ->
             let y :=
               match
                 match K with
                 | Ok cmd => let '(r, w2) := run_cmd D cmd w1 in (r, [cmd], w2)
                 | Raise e => (Raise e, [], w1)
                 end
               with
               | (Raise _, cmds, w2) => (Raise ipmitool_failed, cmds, w2)
               | ok => ok
               end in
             (fst (fst y) = Ok tt \/ fst (fst y) = Raise ipmitool_failed)
             /\ (List.length (snd (fst y)) <= 1)%nat
             /\ (forall cmd : string,
                    In cmd (snd (fst y)) ->
                    String.prefix "ipmitool -I lanplus -H " cmd = true
                    /\ exists body : string, cmd = (body ++ " chassis status")%string)).
  { intros K HK.
    destruct K as [cmd|e]; [destruct (run_cmd D cmd w1) as [[[]|e] w2]|]; cbn;
      (split; [auto|split; [lia|]]); intros c Hin;
      try (destruct Hin as [<-|[]]; apply HK; reflexivity);
      destruct Hin. }
  assert (HK : forall (v : PyValue) (cmd : string),
             result_bind (popitem v)
               (fun kv => result_bind (literal_eval D (snd kv))
                            (fun bmc_info_dict => ipmitool_command D bmc_info_dict))
             = Ok cmd ->
             String.prefix "ipmitool -I lanplus -H " cmd = true
             /\ exists body : string, cmd = (body ++ " chassis status")%string).
  { intros v cmd Hcmd.
    apply result_bind_ok in Hcmd as (kv & _ & Hcmd).
    apply result_bind_ok in Hcmd as (d & _ & Hcmd).
    eapply ipmitool_command_shape; eauto. }
  destruct bmc_info;
    try (cbn; split; [auto|]; split; [lia|]; split; [intros c []|auto]; fail);
    match goal with
    | |- context [result_bind (popitem ?v) ?k] =>
        destruct (Hgen (result_bind (popitem v) k) (HK v)) as (H1 & H2 & H3);
        split; [exact H1|split; [exact H2|split; [exact H3|intros Habs; discriminate Habs]]]
    end.
Qed.

(** ** The further properties on the test doubles *)

(** The acknowledgment of the flush fails: [run] raises, and that failing
    call is the last one. *)
Lemma run_raises_only_while_flushing_witness :
  let C := double 2 in
  let down := mkExn "MessageBusError" "broker down" in
  let f := start_frame
             (double_world (mkDouble [] [] [Raise down] (Some (0%nat, true, [Ok "x"])))) in
  exists (t0 : list Event) (f1 : Frame Double) (ms : list Message) (rest : list Event),
    main_loop C 3 (mkFrame false (message f) (world f)) = (Ok true, t0, f1)
    /\ flush_on_exit (self (world f1)) = true
    /\ trace_of (run C 3 f)
       = t0 ++ EvLog (LogFlushPending (message_type (self (world f1)))) :: drained ms ++ rest
    /\ (rest = [EvReceive 1 (Raise down)]
        \/ exists m : Message,
            rest = [EvReceive 1 (Ok (Some m)); EvLog (LogFlushing m); EvAck (Raise down)]).
Proof.
  intros C down f.
  exact (proj2 (run_raises_only_while_flushing C 3 f) down
           (trace_of (run C 3 f)) (snd (run C 3 f)) eq_refl).
Defined.

Lemma ack_only_after_success_witness :
  let C := double 2 in
  let f := start_frame (double_world (mkDouble [Ok "m1"] [] [] None)) in
  exists (a' : list Event) (m : Message) (status : PyValue),
    [EvIsSet false; EvReceive 2 (Ok (Some "m1")); EvCallback "m1" (Ok (PyStr "success"))]
    = a' ++ [EvCallback m (Ok status)]
    /\ py_eq_str status CONSUMER_STATUS.SUCCESS
       || py_eq_str status CONSUMER_STATUS.SUCCESS_STOP = true.
Proof.
  intros C f.
  exact (ack_only_after_success C 1 f
           [EvIsSet false; EvReceive 2 (Ok (Some "m1")); EvCallback "m1" (Ok (PyStr "success"))]
           [] (Ok tt) eq_refl eq_refl).
Defined.

Lemma no_second_ack_without_poll_witness :
  let C := double 2 in
  let f := start_frame (double_world (mkDouble [Ok "m1"; Ok "m2"] [] [] None)) in
  exists m : Message,
    In (EvReceive 2 (Ok (Some m)))
      [EvIsSet false; EvReceive 2 (Ok (Some "m2")); EvCallback "m2" (Ok (PyStr "success"))].
Proof.
  intros C f.
  exact (no_second_ack_without_poll C 2 f
           [EvIsSet false; EvReceive 2 (Ok (Some "m1")); EvCallback "m1" (Ok (PyStr "success"))]
           [EvIsSet false; EvReceive 2 (Ok (Some "m2")); EvCallback "m2" (Ok (PyStr "success"))]
           [] (Ok tt) (Ok tt) eq_refl eq_refl).
Defined.

Lemma poison_message_blocks_the_loop_witness :
  let w := mkWorld (get_consumer 1 "ha-group" "ha-events" None None None) tt in
  exists (t : list Event) (w' : World unit),
    main_loop stubborn 3 (mkFrame true (Some "m") w) = (Ok false, t, mkFrame true (Some "m") w')
    /\ _stop (self w') = false
    /\ count is_callback t = 3%nat
    /\ count is_receive t = 0%nat
    /\ count is_ack_call t = 0%nat.
Proof.
  intros w.
  apply (poison_message_blocks_the_loop stubborn (fun w' => _stop (self w') = false) "m").
  - intros w' Hw'. cbn. auto.
  - reflexivity.
Defined.

Lemma stop_without_flush_returns_at_once_witness :
  let C := double 2 in
  let w := double_world (mkDouble [Ok "m1"] [] [] None) in
  run C 1 (start_frame (stop false (stop true w)))
  = (Ok Returned, [EvIsSet true], start_frame (stop false w)).
Proof.
  intros C w.
  exact (proj2 (proj2 (stop_without_flush_returns_at_once C 0
                         (start_frame (stop false w)) w true false eq_refl eq_refl))).
Defined.

Lemma handler_gets_last_polled_message_witness :
  calls_on_last_polled None
    (trace_of (main_loop (double 2) 4
                 (start_frame
                    (double_world
                       (mkDouble [Ok "m1"; Ok "m2"] [Ok (outcome_value RETRY)] [] None)))))
  = true.
Proof.
  exact (handler_gets_last_polled_message (double 2) 4
           (start_frame
              (double_world (mkDouble [Ok "m1"; Ok "m2"] [Ok (outcome_value RETRY)] [] None)))
           eq_refl).
Defined.

Lemma idle_topic_only_polls_witness :
  let w := double_world (mkDouble [] [] [] None) in
  exists (t : list Event) (f' : Frame Double),
    main_loop (double 2) 3 (start_frame w) = (Ok false, t, f')
    /\ retry f' = false
    /\ world f' = w
    /\ count is_receive t = 3%nat
    /\ count is_flag_check t = 3%nat
    /\ List.length t = 6%nat.
Proof.
  intros w.
  apply (idle_topic_only_polls (double 2) (fun w' => w' = w)).
  - intros w' ->. cbn. auto.
  - reflexivity.
  - reflexivity.
Defined.

Lemma deregister_undoes_register_witness :
  deregister plain_admin "ha-events" ["other"; "ha-events"]
  = (Ok tt, [DCallNew ADMIN_ID; DCallList; DCallDeregister ["ha-events"]], ["other"])
  /\ deregister plain_admin "ha-events" ["other"]
     = (Ok tt, [DCallNew ADMIN_ID; DCallList], ["other"])
  /\ register (ops_admin plain_admin) "ha-events" None ["other"]
     = (Ok tt, [CallNew ADMIN_ID; CallList; CallRegister ["ha-events"] 1],
        ["other"; "ha-events"]).
Proof.
  destruct (deregister_undoes_register plain_admin (fun t => t) "ha-events" None ["other"]
              plain_admin_keeps_listing)
    as (_ & (H2 & _) & H3 & (H4 & _)).
  split; [exact H2|]. split; [exact H3|exact H4].
Defined.

Lemma str2bool_accepts_fragments_witness :
  str2bool (ArgStr EmptyString) = Ok true
  /\ str2bool (ArgStr "E") = Ok true
  /\ str2bool (ArgStr "aLs") = Ok false.
Proof.
  split; [|split].
  - apply (proj2 (proj1 (str2bool_accepts_fragments EmptyString))).
    left. reflexivity.
  - apply (proj2 (proj1 (str2bool_accepts_fragments "E"))).
    do 4 right. left. reflexivity.
  - apply (proj2 (proj1 (proj2 (str2bool_accepts_fragments "aLs")))).
    do 9 right. left. reflexivity.
Defined.


Lemma absolute_bundle_id_leaves_target_directory_witness :
  tar_file_name bundle_double (Some "/etc/x") (Some "/target") = "/etc/x.tar.gz"
  /\ trace_calls (generate_tar bundle_double (Some "/etc/x") (Some "/target") tt)
     = [FsExists "/target/ha"; FsMakedirs "/target/ha";
        FsTarWrite "/etc/x.tar.gz" "/tmp/cortx/ha_tmp" "ha_tmp"].
Proof.
  pose proof (absolute_bundle_id_leaves_target_directory bundle_double "/etc/x"
                (Some "/target") tt eq_refl) as (H1 & _).
  split; [exact H1|reflexivity].
Defined.

Lemma power_off_masks_every_failure_witness :
  power_off ipmi_double "n2" tt = (Raise ipmitool_failed, [], tt)
  /\ fst (fst (power_off ipmi_double "n3" tt)) = Ok tt
  /\ snd (fst (power_off ipmi_double "n3" tt)) = [].
Proof.
  split; [reflexivity|].
  exact (proj2 (proj2 (proj2 (power_off_masks_every_failure ipmi_double "n3" tt))) eq_refl).
Defined.
